(** * Verification of file_renamer.py (find-replace-rename)

    A shallow embedding of the planning pipeline (matcher, collision
    resolver, tree walker, planner) and of the execution phase of [main]
    (approve-each loop, backup and rename, counters and JSON log). *)

From Stdlib Require Import String Ascii List Bool Arith Lia ZArith.
From Stdlib Require Import DecimalString DecimalNat.
Import ListNotations.
Open Scope string_scope.

(** ** Python [str] primitives

    A Python [str] is modelled as a Rocq [string]; each [ascii] stands for
    one code point in the Latin-1 range U+0000..U+00FF. *)

Module Py.

Definition eqc (a b : ascii) : bool := Ascii.eqb a b.

(** [str.rfind(c)] for a one-character [c]; [None] plays the role of -1. *)
Fixpoint rfind (c : ascii) (s : string) : option nat :=
  match s with
  | EmptyString => None
  | String a s' =>
      match rfind c s' with
      | Some k => Some (S k)
      | None => if eqc a c then Some 0 else None
      end
  end.

(** [s[:n]] and [s[n:]]. *)
Fixpoint take (n : nat) (s : string) : string :=
  match n, s with
  | O, _ => EmptyString
  | S _, EmptyString => EmptyString
  | S n', String a s' => String a (take n' s')
  end.

Fixpoint drop (n : nat) (s : string) : string :=
  match n, s with
  | O, _ => s
  | S _, EmptyString => EmptyString
  | S n', String a s' => drop n' s'
  end.

(** [c in s] for one character. *)
Fixpoint has_char (c : ascii) (s : string) : bool :=
  match s with
  | EmptyString => false
  | String a s' => eqc a c || has_char c s'
  end.

(** [s == c * len(s)]. *)
Fixpoint all_char (c : ascii) (s : string) : bool :=
  match s with
  | EmptyString => true
  | String a s' => eqc a c && all_char c s'
  end.

(** [s.rstrip(c)]. *)
Fixpoint rstrip (c : ascii) (s : string) : string :=
  match s with
  | EmptyString => EmptyString
  | String a s' =>
      let r := rstrip c s' in
      match r with
      | EmptyString => if eqc a c then EmptyString else String a EmptyString
      | _ => String a r
      end
  end.

Fixpoint last_char (s : string) : option ascii :=
  match s with
  | EmptyString => None
  | String a EmptyString => Some a
  | String _ s' => last_char s'
  end.

Definition startswith_char (c : ascii) (s : string) : bool :=
  match s with
  | String a _ => eqc a c
  | EmptyString => false
  end.

Definition endswith_char (c : ascii) (s : string) : bool :=
  match last_char s with
  | Some a => eqc a c
  | None => false
  end.

(** [s.startswith(p)]. *)
Fixpoint startswith (p s : string) : bool :=
  match p, s with
  | EmptyString, _ => true
  | String _ _, EmptyString => false
  | String a p', String b s' => eqc a b && startswith p' s'
  end.

(** [p in s] (substring containment). *)
Fixpoint contains (p s : string) : bool :=
  startswith p s ||
  match s with
  | EmptyString => false
  | String _ s' => contains p s'
  end.

(** [str.lower()] on a Latin-1 code point: A-Z and U+00C0..U+00DE
    (except U+00D7) map to the code point 32 higher. *)
Definition lower_char (c : ascii) : ascii :=
  let n := nat_of_ascii c in
  if (Nat.leb 65 n && Nat.leb n 90) || (Nat.leb 192 n && Nat.leb n 222 && negb (Nat.eqb n 215))
  then ascii_of_nat (n + 32) else c.

Fixpoint lower (s : string) : string :=
  match s with
  | EmptyString => EmptyString
  | String a s' => String (lower_char a) (lower s')
  end.

(** [str.replace(old, new)] for a non-empty [old]: occurrences are
    replaced left to right without overlap. [fuel] bounds the scan. *)
Fixpoint replace_go (fuel : nat) (old new s : string) : string :=
  match fuel with
  | O => s
  | S f =>
      match s with
      | EmptyString => EmptyString
      | String a s' =>
          if startswith old s then new ++ replace_go f old new (drop (String.length old) s)
          else String a (replace_go f old new s')
      end
  end.

Definition replace (s old new : string) : string :=
  replace_go (String.length s) old new s.

(** [f"{i}"] for a non-negative int. *)
Definition str_of_nat (n : nat) : string :=
  NilEmpty.string_of_uint (Nat.to_uint n).

End Py.

(** ** [posixpath] *)

Module PosixPath.
Import Py.

Definition sep : ascii := "/"%char.

(** [os.path.split]. *)
Definition split (p : string) : string * string :=
  let i := match rfind sep p with Some k => S k | None => O end in
  let head := take i p in
  let tail := drop i p in
  let head' :=
    match head with
    | EmptyString => head
    | _ => if all_char sep head then head else rstrip sep head
    end in
  (head', tail).

Definition dirname (p : string) : string := fst (split p).

(** [os.path.basename]: [p[p.rfind('/')+1:]]. *)
Definition basename (p : string) : string :=
  let i := match rfind sep p with Some k => S k | None => O end in
  drop i p.

(** [os.path.join(a, b)] with two arguments. *)
Definition join (a b : string) : string :=
  if startswith_char sep b then b
  else match a with
       | EmptyString => a ++ b
       | _ => if endswith_char sep a then a ++ b else a ++ String sep b
       end.

(** [os.path.splitext]: the extension starts at the last dot of the last
    component, unless everything before that dot in the component is dots. *)
Definition splitext (p : string) : string * string :=
  match rfind "."%char p with
  | None => (p, EmptyString)
  | Some d =>
      let s := match rfind sep p with Some k => S k | None => O end in
      if Nat.ltb d s then (p, EmptyString)
      else if all_char "."%char (take (d - s) (drop s p)) then (p, EmptyString)
      else (take d p, drop d p)
  end.

End PosixPath.

(** ** Exceptions *)

Inductive exn : Type :=
| ValueError   (* raised by [regex_replace_name] for a bad pattern *)
| ReError.     (* [re.error] (bad pattern or bad replacement template) *)

Inductive result (A : Type) : Type :=
| Ok (a : A)
| Raise (e : exn).
Arguments Ok {A} a.
Arguments Raise {A} e.

(** ** The [re] module on literal patterns

    [re.sub] first parses the replacement string as a template
    ([_parser.parse_template]); the templates below are those of a pattern
    with no capturing group, which is the case of [re.escape(find_term)]
    in [ci_replace]. *)

Module Re.
Import Py.

Inductive titem : Type :=
| TLit (c : ascii)   (* a literal character *)
| TGroup0.           (* [\g<0>]: the whole match *)

Definition bslash : ascii := "\"%char.

Definition is_digit (c : ascii) : bool :=
  Nat.leb 48 (nat_of_ascii c) && Nat.leb (nat_of_ascii c) 57.
Definition is_oct (c : ascii) : bool :=
  Nat.leb 48 (nat_of_ascii c) && Nat.leb (nat_of_ascii c) 55.
Definition digit_val (c : ascii) : nat := nat_of_ascii c - 48.
Definition is_ascii_letter (c : ascii) : bool :=
  let n := nat_of_ascii c in
  (Nat.leb 65 n && Nat.leb n 90) || (Nat.leb 97 n && Nat.leb n 122).

(** [ESCAPES] of the template parser: [\a \b \f \n \r \t \v \\]. *)
Definition escape (c : ascii) : option ascii :=
  if eqc c "a"%char then Some (ascii_of_nat 7)
  else if eqc c "b"%char then Some (ascii_of_nat 8)
  else if eqc c "f"%char then Some (ascii_of_nat 12)
  else if eqc c "n"%char then Some (ascii_of_nat 10)
  else if eqc c "r"%char then Some (ascii_of_nat 13)
  else if eqc c "t"%char then Some (ascii_of_nat 9)
  else if eqc c "v"%char then Some (ascii_of_nat 11)
  else if eqc c bslash then Some bslash
  else None.

(** [Tokenizer.getuntil(">")]: the group name and the rest. *)
Fixpoint getuntil_gt (s : string) : option (string * string) :=
  match s with
  | EmptyString => None
  | String c r =>
      if eqc c ">"%char then Some (EmptyString, r)
      else match getuntil_gt r with
           | Some (n, rest) => Some (String c n, rest)
           | None => None
           end
  end.

Definition ocons (i : titem) (o : option (list titem)) : option (list titem) :=
  match o with Some l => Some (i :: l) | None => None end.

(** [parse_template(repl, pattern)] for [pattern.groups = 0]; [None] is a
    raised [re.error] (or [IndexError] for an unknown group name).
    Every group reference other than 0 is out of range. *)
Fixpoint parse_template_go (fuel : nat) (s : string) : option (list titem) :=
  match fuel with
  | O => None
  | S f =>
  match s with
  | EmptyString => Some []
  | String c r =>
      if negb (eqc c bslash) then ocons (TLit c) (parse_template_go f r)
      else match r with
        | EmptyString => None  (* bad escape (end of pattern) *)
        | String d r1 =>
          if eqc d "g"%char then
            match r1 with
            | String lt r2 =>
                if eqc lt "<"%char then
                  match getuntil_gt r2 with
                  | Some (name, r3) =>
                      (* a decimal name is int(name); only group 0 exists *)
                      match name with
                      | EmptyString => None
                      | _ => if all_char "0"%char name
                             then ocons TGroup0 (parse_template_go f r3)
                             else None
                      end
                  | None => None
                  end
                else None  (* missing < *)
            | EmptyString => None
            end
          else if eqc d "0"%char then
            (* \0 followed by at most two octal digits *)
            match r1 with
            | String e r2 =>
                if is_oct e then
                  match r2 with
                  | String g r3 =>
                      if is_oct g
                      then ocons (TLit (ascii_of_nat (8 * digit_val e + digit_val g)))
                                 (parse_template_go f r3)
                      else ocons (TLit (ascii_of_nat (digit_val e))) (parse_template_go f r2)
                  | EmptyString => ocons (TLit (ascii_of_nat (digit_val e))) (parse_template_go f r2)
                  end
                else ocons (TLit (ascii_of_nat 0)) (parse_template_go f r1)
            | EmptyString => Some [TLit (ascii_of_nat 0)]
            end
          else if is_digit d then
            (* three octal digits are a character; anything else is a
               group reference >= 1, which does not exist *)
            match r1 with
            | String e (String g r3) =>
                if is_oct d && is_oct e && is_oct g then
                  let v := 64 * digit_val d + 8 * digit_val e + digit_val g in
                  if Nat.ltb 255 v then None
                  else ocons (TLit (ascii_of_nat v)) (parse_template_go f r3)
                else None
            | _ => None
            end
          else match escape d with
               | Some ch => ocons (TLit ch) (parse_template_go f r1)
               | None =>
                   if is_ascii_letter d then None  (* bad escape *)
                   else ocons (TLit bslash) (ocons (TLit d) (parse_template_go f r1))
               end
        end
  end
  end.

Definition parse_template (repl : string) : option (list titem) :=
  parse_template_go (S (String.length repl)) repl.

Fixpoint expand (items : list titem) (m : string) : string :=
  match items with
  | [] => EmptyString
  | TLit c :: rest => String c (expand rest m)
  | TGroup0 :: rest => m ++ expand rest m
  end.

(** Matching a literal pattern at the start of [s]; with IGNORECASE each
    character is compared after lower-casing. *)
Definition lit_at (ic : bool) (p s : string) : bool :=
  if ic then startswith (lower p) (lower s) else startswith p s.

(** The search of [_sre]: the first position [j] where the pattern
    matches; with [must_advance] an empty match at the start is refused. *)
Fixpoint scan (ic : bool) (p : string) (must_adv : bool) (s : string) (j : nat) (first : bool)
  : option nat :=
  if lit_at ic p s && negb (first && must_adv && (String.length p =? 0)%nat)
  then Some j
  else match s with
       | EmptyString => None
       | String _ r => scan ic p must_adv r (S j) false
       end.

Definition find_from (ic : bool) (p : string) (must_adv : bool) (s : string) : option nat :=
  scan ic p must_adv s 0 true.

(** The loop of [pattern_subx]: copy up to the match, append the expanded
    template, resume after the match; after an empty match the next match
    must advance. *)
Fixpoint sub_go (fuel : nat) (ic : bool) (p : string) (items : list titem)
  (s : string) (must_adv : bool) : string :=
  match fuel with
  | O => s
  | S f =>
      match find_from ic p must_adv s with
      | None => s
      | Some j =>
          take j s ++ expand items (take (String.length p) (drop j s))
          ++ sub_go f ic p items (drop (j + String.length p) s) (String.length p =? 0)%nat
      end
  end.

(** [re.compile(re.escape(p), flags).sub(repl, s)]. *)
Definition sub_literal (ic : bool) (p repl s : string) : result string :=
  match parse_template repl with
  | None => Raise ReError
  | Some items => Ok (sub_go (2 * String.length s + 2) ic p items s false)
  end.

End Re.

(** ** Regular-expression engine

    [regex_replace_name] and [find_matches] use [re.compile], [search] and
    [sub] on a user pattern; they are stated over any engine. *)

Class ReEngine : Type := {
  re_pat : Type;
  (** [re.compile(pattern, 0 if case_sensitive else re.IGNORECASE)];
      the boolean is IGNORECASE *)
  re_compile : string -> bool -> result re_pat;
  (** [rx.search(name) is not None] *)
  re_search : re_pat -> string -> bool;
  (** [rx.sub(repl, name)] *)
  re_sub : re_pat -> string -> string -> result string
}.

(** The engine on patterns without metacharacters, where [re] matches the
    pattern literally.  Patterns with a metacharacter are outside this
    instance: it reports them as not compilable. *)
Definition re_meta : string := ".^$*+?{}[]\|()".

Definition has_meta (p : string) : bool :=
  let fix go s := match s with
                  | EmptyString => false
                  | String c s' => Py.has_char c re_meta || go s'
                  end in go p.

Definition lit_engine : ReEngine := {|
  re_pat := bool * string;
  re_compile := fun p ic => if has_meta p then Raise ReError else Ok (ic, p);
  re_search := fun rx name =>
    match Re.find_from (fst rx) (snd rx) false name with Some _ => true | None => false end;
  re_sub := fun rx repl name => Re.sub_literal (fst rx) (snd rx) repl name
|}.

(** ** Matcher *)

Section Matcher.
Context {E : ReEngine}.
Import Py.

Definition name_matches (name term : string) (case_sensitive : bool) : bool :=
  if String.eqb term "" then false
  else if case_sensitive then contains term name
  else contains (lower term) (lower name).

Definition ci_replace (text find_term replace_with : string) (case_sensitive : bool)
  : result string :=
  if String.eqb find_term "" then Ok text
  else if case_sensitive then Ok (replace text find_term replace_with)
  else Re.sub_literal true find_term replace_with text.

Definition regex_replace_name (name pattern repl : string) (case_sensitive : bool)
  : result (bool * string) :=
  match re_compile pattern (negb case_sensitive) with
  | Raise _ => Raise ValueError
  | Ok rx =>
      if negb (re_search rx name) then Ok (false, name)
      else match re_sub rx repl name with
           | Ok new_name => Ok (true, new_name)
           | Raise e => Raise e
           end
  end.

End Matcher.

(** ** Filesystem snapshot, walker and collision resolver *)

(** The existing paths, as [os.path.exists] sees them during planning. *)
Definition path_exists (fs : list string) (p : string) : bool :=
  existsb (String.eqb p) fs.

(** The output of [os.walk(root)]: [(dirpath, dirnames, filenames)]. *)
Definition walk_t : Type := list (string * list string * list string).

Definition iter_targets (walk : walk_t) (include_dirs : bool) : list (string * bool) :=
  flat_map (fun '(dirpath, dirnames, filenames) =>
              (if include_dirs then map (fun d => (PosixPath.join dirpath d, true)) dirnames
               else [])
              ++ map (fun f => (PosixPath.join dirpath f, false)) filenames)%list
           walk.

Definition eligible (path : string) (is_dir : bool) (exts : list string) : bool :=
  if is_dir then true
  else match exts with
       | [] => true
       | _ => let ext := snd (PosixPath.splitext path) in
              existsb (String.eqb (Py.lower ext)) exts
       end.

(** The [while True] probing loop from [i]; [fuel] counts the probes
    (at least one candidate among [length fs + 1] distinct ones is free). *)
Fixpoint probe (fs : list string) (cand : nat -> string) (fuel i : nat) : string :=
  match fuel with
  | O => cand i
  | S f => if path_exists fs (cand i) then probe fs cand f (S i) else cand i
  end.

Definition collision_candidate (dst : string) (i : nat) : string :=
  let '(dirn, name) := PosixPath.split dst in
  let '(root, ext) := PosixPath.splitext name in
  PosixPath.join dirn (root ++ "(" ++ Py.str_of_nat i ++ ")" ++ ext).

Definition next_nonconflicting_path (fs : list string) (dst : string) : string :=
  if negb (path_exists fs dst) then dst
  else probe fs (collision_candidate dst) (S (List.length fs)) 1.

Definition backup_candidate (src : string) (i : nat) : string :=
  src ++ ".bak(" ++ Py.str_of_nat i ++ ")".

Definition backup_nonconflicting_path (fs : list string) (src : string) : string :=
  let cand := src ++ ".bak" in
  if negb (path_exists fs cand) then cand
  else probe fs (backup_candidate src) (S (List.length fs)) 1.

(** ** Planner and find-only matching *)

Record config : Type := mk_config {
  find_term : string;
  replace_with : string;
  case_sensitive : bool;
  include_dirs : bool;
  exts : list string;
  regex : bool
}.

Definition rename_op : Type := string * string * bool.

Section Planner.
Context {E : ReEngine}.

(** The new base name [plan_changes] computes for [name]: [Ok None] when
    the loop [continue]s before the no-op test (no match, or the
    [ValueError] of a bad pattern), [Raise] for an escaping exception. *)
Definition new_name_for (cfg : config) (name : string) : result (option string) :=
  if regex cfg then
    match regex_replace_name name (find_term cfg) (replace_with cfg) (case_sensitive cfg) with
    | Raise ValueError => Ok None
    | Raise e => Raise e
    | Ok (false, _) => Ok None
    | Ok (true, new_name) => Ok (Some new_name)
    end
  else if negb (name_matches name (find_term cfg) (case_sensitive cfg)) then Ok None
  else match ci_replace name (find_term cfg) (replace_with cfg) (case_sensitive cfg) with
       | Ok new_name => Ok (Some new_name)
       | Raise e => Raise e
       end.

Fixpoint plan_loop (fs : list string) (cfg : config) (targets : list (string * bool))
  : result (list rename_op) :=
  match targets with
  | [] => Ok []
  | (path, is_dir) :: rest =>
      if negb (eligible path is_dir (exts cfg)) then plan_loop fs cfg rest
      else
        let '(dirn, name) := PosixPath.split path in
        match new_name_for cfg name with
        | Raise e => Raise e
        | Ok None => plan_loop fs cfg rest
        | Ok (Some new_name) =>
            if String.eqb new_name name then plan_loop fs cfg rest
            else
              let dst := PosixPath.join dirn new_name in
              let dst_final := next_nonconflicting_path fs dst in
              match plan_loop fs cfg rest with
              | Ok changes => Ok ((path, dst_final, is_dir) :: changes)
              | Raise e => Raise e
              end
        end
  end.

(** [plan_changes(root, ...)], with [walk] the result of [os.walk(root)]
    and [fs] the existing paths. *)
Definition plan_changes (fs : list string) (walk : walk_t) (cfg : config)
  : result (list rename_op) :=
  plan_loop fs cfg (iter_targets walk (include_dirs cfg)).

Fixpoint find_loop (cfg : config) (targets : list (string * bool)) : list (string * bool) :=
  match targets with
  | [] => []
  | (path, is_dir) :: rest =>
      if negb (eligible path is_dir (exts cfg)) then find_loop cfg rest
      else
        let name := PosixPath.basename path in
        let hit :=
          if regex cfg then
            match re_compile (find_term cfg) (negb (case_sensitive cfg)) with
            | Ok rx => re_search rx name
            | Raise _ => false  (* re.error: continue *)
            end
          else name_matches name (find_term cfg) (case_sensitive cfg) in
        if hit then (path, is_dir) :: find_loop cfg rest else find_loop cfg rest
  end.

Definition find_matches (walk : walk_t) (cfg : config) : list (string * bool) :=
  find_loop cfg (iter_targets walk (include_dirs cfg)).

End Planner.

(** The demo tree of the tests, rooted at "/t". *)
Definition demo_walk : walk_t :=
  [ ("/t", ["Reports"], ["Report-123.txt"; "Report-456.pdf"; "draft_note.txt"]);
    ("/t/Reports", [], ["Report-789.txt"]) ].

Definition demo_fs : list string :=
  [ "/t"; "/t/Reports"; "/t/Report-123.txt"; "/t/Report-456.pdf";
    "/t/draft_note.txt"; "/t/Reports/Report-789.txt" ].

(** Two names equal up to case: [report.txt] becomes [Report(1).txt],
    [Report.txt] is left out as a no-op. *)
Definition case_walk : walk_t := [("/t", [], ["Report.txt"; "report.txt"])].
Definition case_fs : list string := ["/t"; "/t/Report.txt"; "/t/report.txt"].
Definition case_cfg : config := mk_config "report" "Report" false false [] false.

(** ** Execution phase of [main]

    The operating system is abstract: [shutil.copy2] and [os.rename] act
    on a world and either succeed or raise one of the caught errors. *)

Inductive os_err : Type :=
| FileNotFoundError
| PermissionError
| OtherError.

Class Sys : Type := {
  world : Type;
  w_paths : world -> list string;
  sys_copy2 : world -> string -> string -> world * option os_err;
  sys_rename : world -> string -> string -> world * option os_err
}.

(** The JSON-log records written per item ([action], [status]). *)
Inductive event : Type :=
| EvDryRunBackup (src bk : string)            (* dry_run_backup, ok *)
| EvDryRunRename (src dst : string)           (* dry_run_rename, ok *)
| EvBackup (src bk : string) (ok : bool)      (* backup, ok / failed *)
| EvRename (src dst : string) (err : option os_err).  (* rename, ok / failed *)

Module Prompt.
Import Py.

(** [str.isspace()] on Latin-1. *)
Definition is_space (c : ascii) : bool :=
  let n := nat_of_ascii c in
  (Nat.leb 9 n && Nat.leb n 13) || (Nat.leb 28 n && Nat.leb n 32)
  || Nat.eqb n 133 || Nat.eqb n 160.

Fixpoint lstrip (s : string) : string :=
  match s with
  | String c s' => if is_space c then lstrip s' else s
  | EmptyString => EmptyString
  end.

Fixpoint rstrip_ws (s : string) : string :=
  match s with
  | EmptyString => EmptyString
  | String a s' =>
      let r := rstrip_ws s' in
      match r with
      | EmptyString => if is_space a then EmptyString else String a EmptyString
      | _ => String a r
      end
  end.

Definition strip (s : string) : string := rstrip_ws (lstrip s).

End Prompt.

Inductive decision : Type := Approve | Decline | Quit.

(** [resp = input(...).strip().lower()] and the branch it selects;
    [None] re-prompts ("Please answer y, n, or q."). *)
Definition classify (line : string) : option decision :=
  let resp := Py.lower (Prompt.strip line) in
  if String.eqb resp "y" || String.eqb resp "yes" then Some Approve
  else if String.eqb resp "n" || String.eqb resp "no" then Some Decline
  else if String.eqb resp "q" then Some Quit
  else None.

(** The inner [while True] loop for one item: the decision, the number of
    prompts issued and the remaining input lines; [None] is the [EOFError]
    of [input()] at the end of the input. *)
Fixpoint ask (inputs : list string) : option (decision * nat * list string) :=
  match inputs with
  | [] => None
  | line :: rest =>
      match classify line with
      | Some d => Some (d, 1, rest)
      | None =>
          match ask rest with
          | Some (d, n, r) => Some (d, S n, r)
          | None => None
          end
      end
  end.

(** The [for] loop over [changes] in approve-each mode: the items appended
    to [to_apply], the total number of prompts, the remaining input. *)
Fixpoint approve_loop (changes : list rename_op) (inputs : list string)
  : option (list rename_op * nat * list string) :=
  match changes with
  | [] => Some ([], 0, inputs)
  | op :: rest =>
      match ask inputs with
      | None => None
      | Some (d, n, inputs') =>
          match approve_loop rest inputs' with
          | None => None
          | Some (to_apply, m, r) =>
              match d with
              | Approve => Some (op :: to_apply, n + m, r)
              | Decline | Quit => Some (to_apply, n + m, r)
              end
          end
      end
  end.

Record exec_state {S : Sys} : Type := mk_exec {
  x_world : world;
  x_renamed : Z;
  x_errors : Z;
  x_log : list event
}.
Arguments exec_state : clear implicits.
Arguments mk_exec {S}.

Section Executor.
Context {S : Sys}.

(** One iteration of the execution [for] loop. *)
Definition exec_item (dry_run backup : bool) (st : exec_state S) (op : rename_op)
  : exec_state S :=
  let '(src, dst, is_dir) := op in
  let '(mk_exec w renamed errors log) := st in
  if dry_run then
    let log1 := if backup && negb is_dir
                then (log ++ [EvDryRunBackup src (backup_nonconflicting_path (w_paths w) src)])%list
                else log in
    mk_exec w (renamed + 1)%Z errors (log1 ++ [EvDryRunRename src dst])%list
  else
    let backup_step :=
      if backup && negb is_dir then
        let bk_path := backup_nonconflicting_path (w_paths w) src in
        let '(w1, r) := sys_copy2 w src bk_path in
        match r with
        | None => inl (w1, (log ++ [EvBackup src bk_path true])%list)
        | Some _ => inr (w1, (log ++ [EvBackup src bk_path false])%list)
        end
      else inl (w, log) in
    match backup_step with
    | inr (w1, log1) => mk_exec w1 renamed (errors + 1)%Z log1   (* continue *)
    | inl (w1, log1) =>
        let '(w2, r) := sys_rename w1 src dst in
        match r with
        | None => mk_exec w2 (renamed + 1)%Z errors (log1 ++ [EvRename src dst None])%list
        | Some e => mk_exec w2 renamed (errors + 1)%Z (log1 ++ [EvRename src dst (Some e)])%list
        end
    end.

Fixpoint exec_items (dry_run backup : bool) (st : exec_state S) (ops : list rename_op)
  : exec_state S :=
  match ops with
  | [] => st
  | op :: rest => exec_items dry_run backup (exec_item dry_run backup st op) rest
  end.

Record summary : Type := mk_summary {
  total_found : Z;
  renamed : Z;
  skipped : Z;
  errors : Z
}.

Inductive run_outcome : Type :=
| NothingToDo
| Completed (s : summary) (st : exec_state S).

(** [main] from [total_found = len(changes)] to the summary; [None] is an
    uncaught [EOFError] during the approvals. *)
Definition run_changes (w : world) (dry_run backup approve_each : bool)
  (changes : list rename_op) (inputs : list string) : option run_outcome :=
  let found := Z.of_nat (List.length changes) in
  if (found =? 0)%Z then Some NothingToDo
  else
    let to_apply :=
      if approve_each then
        match approve_loop changes inputs with
        | Some (l, _, _) => Some l
        | None => None
        end
      else Some changes in
    match to_apply with
    | None => None
    | Some ops =>
        let st := exec_items dry_run backup (mk_exec w 0%Z 0%Z []) ops in
        let sk := if approve_each then (found - x_renamed st - x_errors st)%Z else 0%Z in
        Some (Completed (mk_summary found (x_renamed st) sk (x_errors st)) st)
    end.

End Executor.


(** Outcomes as the JSON log reports them: [status = "ok"] for a
    [rename] or [dry_run_rename] record, [status = "failed"] records. *)
Definition is_rename_ok (e : event) : bool :=
  match e with
  | EvDryRunRename _ _ | EvRename _ _ None => true
  | _ => false
  end.

Definition is_failed (e : event) : bool :=
  match e with
  | EvBackup _ _ false | EvRename _ _ (Some _) => true
  | _ => false
  end.

Definition count_ev (p : event -> bool) (log : list event) : Z :=
  Z.of_nat (List.length (filter p log)).

(** A world given by its list of paths: [copy2] and [rename] fail with
    [FileNotFoundError] when the source is absent. *)
Definition list_sys : Sys := {|
  world := list string;
  w_paths := fun w => w;
  sys_copy2 := fun w src dst =>
    if path_exists w src then (dst :: w, None) else (w, Some FileNotFoundError);
  sys_rename := fun w src dst =>
    if path_exists w src then (dst :: filter (fun p => negb (String.eqb p src)) w, None)
    else (w, Some FileNotFoundError)
|}.

(** Modelled from the spec (refinement target of [ci_replace]): every
    occurrence of the find term, located on lower-cased operands, is
    replaced by the replacement text inserted literally. *)
Fixpoint ci_replace_spec_go (fuel : nat) (find repl s : string) : string :=
  match fuel with
  | O => s
  | S f =>
      match s with
      | EmptyString => EmptyString
      | String a s' =>
          if Py.startswith (Py.lower find) (Py.lower s)
          then repl ++ ci_replace_spec_go f find repl (Py.drop (String.length find) s)
          else String a (ci_replace_spec_go f find repl s')
      end
  end.

Definition ci_replace_spec (text find repl : string) : string :=
  ci_replace_spec_go (String.length text) find repl text.

(** The directory part [os.path.join(a, b)] puts before a [b] that does
    not start with a separator. *)
Definition join_prefix (a : string) : string :=
  match a with
  | EmptyString => EmptyString
  | _ => if Py.endswith_char PosixPath.sep a then a else a ++ String PosixPath.sep EmptyString
  end.

(** The head normalisation of [os.path.split]. *)
Definition split_head (head : string) : string :=
  match head with
  | EmptyString => head
  | _ => if Py.all_char PosixPath.sep head then head else Py.rstrip PosixPath.sep head
  end.

(** ** Input normalisation *)

(** The double-quote character. *)
Definition dquote : ascii := ascii_of_nat 34.

(** [strip_quotes] on a [str]: strip whitespace, then remove one pair of
    matching outer quotes ([s[1:-1]]). *)
Definition strip_quotes_str (s0 : string) : string :=
  let s := Prompt.strip s0 in
  if Nat.leb 2 (String.length s) &&
     ((Py.startswith_char dquote s && Py.endswith_char dquote s) ||
      (Py.startswith_char "'"%char s && Py.endswith_char "'"%char s))
  then Py.take (String.length s - 2) (Py.drop 1 s)
  else s.

Definition strip_quotes (s : option string) : option string :=
  match s with
  | None => None
  | Some s0 => Some (strip_quotes_str s0)
  end.

(** [str.split(c)] for a one-character separator: always at least one part. *)
Fixpoint split_on (c : ascii) (s : string) : list string :=
  match s with
  | EmptyString => [EmptyString]
  | String a s' =>
      if Py.eqc a c then EmptyString :: split_on c s'
      else match split_on c s' with
           | x :: xs => String a x :: xs
           | [] => [String a EmptyString]
           end
  end.

(** [normalize_exts]: the comma-separated parts, stripped, the empty ones
    dropped, a leading dot added where missing, lower-cased. *)
Definition normalize_exts (ext_str : string) : list string :=
  if String.eqb ext_str "" then []
  else
    let parts := map Prompt.strip
                   (filter (fun e => negb (String.eqb (Prompt.strip e) "")) (split_on ","%char ext_str)) in
    map (fun e => Py.lower (if Py.startswith_char "."%char e then e else String "."%char e)) parts.

(** [",".join(xs)], to feed normalised extensions back to [--ext]. *)
Fixpoint join_comma (xs : list string) : string :=
  match xs with
  | [] => EmptyString
  | [x] => x
  | x :: xs' => x ++ String ","%char (join_comma xs')
  end.

(** ** Dated log files

    [ensure_log_file] and [ensure_json_log_file] differ only in the suffix
    of [base_name]. [date] is [now().strftime("%m.%d.%Y")]; [can_open p]
    says whether [open(p, 'a')] succeeds. The [while True] loop probes
    [root(i)ext] from [i = 1]. *)
Definition log_candidate (base_dir base_name : string) (i : nat) : string :=
  let '(root, ext) := PosixPath.splitext base_name in
  PosixPath.join base_dir (root ++ "(" ++ Py.str_of_nat i ++ ")" ++ ext).

Definition ensure_dated_log_file (fs : list string) (can_open : string -> bool)
  (base_dir date suffix : string) : option string :=
  let base_name := "renamed." ++ date ++ suffix in
  let path := PosixPath.join base_dir base_name in
  if negb (path_exists fs path) then
    if can_open path then Some path else None
  else
    let trial := probe fs (log_candidate base_dir base_name) (S (List.length fs)) 1 in
    if can_open trial then Some trial else None.

Definition ensure_log_file (fs : list string) (can_open : string -> bool) (base_dir date : string)
  : option string :=
  ensure_dated_log_file fs can_open base_dir date ".txt".

Definition ensure_json_log_file (fs : list string) (can_open : string -> bool) (base_dir date : string)
  : option string :=
  ensure_dated_log_file fs can_open base_dir date ".jsonl".

(** ** Interactive input

    Each [input()] consumes one line of [inputs]; the end of [inputs] is
    the uncaught [EOFError]. *)

(** [prompt_with_default] given the line typed. *)
Definition prompt_with_default (line : string) (default : option string) : string :=
  match default with
  | None | Some EmptyString => Prompt.strip line
  | Some d => let resp := Prompt.strip line in
              if String.eqb resp "" then d else resp
  end.

Definition is_plan_answer (ans : string) : bool :=
  existsb (String.eqb ans) ["y"; "yes"; "n"; "no"; "a"; "c"].

(** The [while True] loop of [confirm_plan]: the answer and the rest of
    the input. *)
Fixpoint confirm_plan (inputs : list string) : option (string * list string) :=
  match inputs with
  | [] => None
  | line :: rest =>
      let ans := Py.lower (Prompt.strip line) in
      if is_plan_answer ans then Some (ans, rest) else confirm_plan rest
  end.

(** The [prev] dict of [gather_inputs_interactive], restricted to its
    string-valued keys ["location"], ["find"], ["replace"] ([None] is a
    Python [None] value); the other keys only feed the printed plan.
    Lookups take the first binding. *)
Definition prev_dict : Type := list (string * option string).

Definition dict_find (d : prev_dict) (k : string) : option (option string) :=
  match find (fun kv => String.eqb (fst kv) k) d with
  | Some (_, v) => Some v
  | None => None
  end.

(** [prev.get(k)]. *)
Definition prev_get (d : prev_dict) (k : string) : option string :=
  match dict_find d k with Some v => v | None => None end.

(** [{"location": l, "find": f, "replace": r, **prev}]: a key of [prev]
    overrides the literal's. *)
Definition merge_prev (l f r : string) (prev : prev_dict) : prev_dict :=
  (prev ++ [("location", Some l); ("find", Some f); ("replace", Some r)])%list.

Inductive gather_result : Type :=
| GReturn (location find_term replace_term : string) (rest : list string)
| GExit0                      (* [sys.exit(0)] after "Aborted by user." *)
| GEOF.                       (* [EOFError] from [input()] *)

Fixpoint gather_go (fuel : nat) (prev : prev_dict) (inputs : list string) : gather_result :=
  match fuel with
  | O => GEOF
  | S f =>
      match inputs with
      | l1 :: l2 :: l3 :: rest =>
          let location := prompt_with_default l1 (prev_get prev "location") in
          let find_term := strip_quotes_str (prompt_with_default l2 (prev_get prev "find")) in
          let replace_default :=
            match prev_get prev "replace" with
            | None | Some EmptyString => EmptyString
            | Some r => r
            end in
          let replace_term := strip_quotes_str (prompt_with_default l3 (Some replace_default)) in
          match confirm_plan rest with
          | None => GEOF
          | Some (ans, rest') =>
              if existsb (String.eqb ans) ["y"; "yes"; "a"] then
                GReturn location find_term replace_term rest'
              else if existsb (String.eqb ans) ["n"; "no"] then GExit0
              else gather_go f (merge_prev location find_term replace_term prev) rest'
          end
      | _ => GEOF
      end
  end.

(** Every round reads at least four lines, so [length inputs] rounds suffice. *)
Definition gather_inputs_interactive (prev : prev_dict) (inputs : list string) : gather_result :=
  gather_go (S (List.length inputs)) prev inputs.

Inductive confirm_outcome : Type :=
| CProceed (approve_each : bool) (location find_term replace_term : string) (rest : list string)
| CAbort                      (* "Aborted by user.", return 0 *)
| CExit0
| CEOF.

(** The confirmation stage of [main], from [if find_only:] to the
    re-prompt after a "c" answer. *)
Definition main_confirm (find_only : bool) (location find_term replace_term : string)
  (inputs : list string) : confirm_outcome :=
  if find_only then CProceed false location find_term replace_term inputs
  else
    match confirm_plan inputs with
    | None => CEOF
    | Some (ans, rest) =>
        if existsb (String.eqb ans) ["n"; "no"] then CAbort
        else
          let approve_each := String.eqb ans "a" in
          if String.eqb ans "c" then
            match gather_inputs_interactive
                    [("location", Some location); ("find", Some find_term);
                     ("replace", Some replace_term)] rest with
            | GReturn l f r rest' => CProceed approve_each l f r rest'
            | GExit0 => CExit0
            | GEOF => CEOF
            end
          else CProceed approve_each location find_term replace_term rest
    end.

(** [xs] keeps some elements of [ys], in order. *)
Inductive subseq {A : Type} : list A -> list A -> Prop :=
| subseq_nil : subseq [] []
| subseq_keep x xs ys : subseq xs ys -> subseq (x :: xs) (x :: ys)
| subseq_skip x xs ys : subseq xs ys -> subseq xs (x :: ys).

(** * Proofs *)

(** ** String facts *)

Module StrFacts.
Import Py.

Lemma eqc_true (a b : ascii) : eqc a b = true <-> a = b.
Proof. unfold eqc. apply Ascii.eqb_eq. Qed.

Lemma eqc_refl (a : ascii) : eqc a a = true.
Proof. apply eqc_true; reflexivity. Qed.

Lemma has_char_app (c : ascii) (a b : string) :
  has_char c (a ++ b) = has_char c a || has_char c b.
Proof. induction a as [|x a IH]; simpl; [reflexivity|]. rewrite IH, orb_assoc. reflexivity. Qed.

Lemma has_char_take (c : ascii) (n : nat) (s : string) :
  has_char c s = false -> has_char c (take n s) = false.
Proof.
  revert n; induction s as [|x s IH]; intros [|n] H; simpl in *; auto.
  apply orb_false_iff in H as [H1 H2]. rewrite H1, IH; auto.
Qed.

Lemma has_char_drop (c : ascii) (n : nat) (s : string) :
  has_char c s = false -> has_char c (drop n s) = false.
Proof.
  revert n; induction s as [|x s IH]; intros [|n] H; simpl in *; auto.
  apply orb_false_iff in H as [H1 H2]. auto.
Qed.

Lemma rfind_none (c : ascii) (s : string) :
  rfind c s = None -> has_char c s = false.
Proof.
  induction s as [|x s IH]; simpl; [reflexivity|].
  destruct (rfind c s); [discriminate|].
  destruct (eqc x c) eqn:E; [discriminate|]. intros _. rewrite IH; reflexivity.
Qed.

Lemma rfind_some_drop (c : ascii) (s : string) (k : nat) :
  rfind c s = Some k -> has_char c (drop (S k) s) = false.
Proof.
  revert k; induction s as [|x s IH]; intros k; simpl; [discriminate|].
  destruct (rfind c s) as [k'|] eqn:R.
  - intros [= <-]. simpl. apply IH. reflexivity.
  - destruct (eqc x c); [|discriminate]. intros [= <-]. simpl. apply rfind_none; assumption.
Qed.

Lemma rfind_some_take (c : ascii) (s : string) (k : nat) :
  rfind c s = Some k -> exists x, take (S k) s = x ++ String c EmptyString.
Proof.
  revert k; induction s as [|y s IH]; intros k; simpl; [discriminate|].
  destruct (rfind c s) as [k'|] eqn:R.
  - intros [= <-]. destruct (IH k' eq_refl) as [x Hx].
    exists (String y x).
    change (take (S (S k')) (String y s)) with (String y (take (S k') s)).
    rewrite Hx. reflexivity.
  - destruct (eqc y c) eqn:E; [|discriminate]. intros [= <-].
    apply eqc_true in E; subst. exists EmptyString. reflexivity.
Qed.

Lemma rfind_app_nochar (c : ascii) (a b : string) :
  has_char c b = false -> rfind c (a ++ b) = rfind c a.
Proof.
  intros Hb. induction a as [|x a IH]; simpl.
  - induction b as [|y b IHb]; simpl in *; [reflexivity|].
    apply orb_false_iff in Hb as [H1 H2]. rewrite IHb by assumption. rewrite H1. reflexivity.
  - rewrite IH. reflexivity.
Qed.

Lemma rfind_snoc (c : ascii) (a : string) :
  rfind c (a ++ String c EmptyString) = Some (String.length a).
Proof.
  induction a as [|x a IH]; simpl.
  - rewrite eqc_refl. reflexivity.
  - rewrite IH. reflexivity.
Qed.

Lemma take_app (a b : string) : take (String.length a) (a ++ b) = a.
Proof. induction a as [|x a IH]; simpl; [reflexivity|]. rewrite IH; reflexivity. Qed.

Lemma drop_app (a b : string) : drop (String.length a) (a ++ b) = b.
Proof. induction a as [|x a IH]; simpl; auto. Qed.

Lemma take_drop (n : nat) (s : string) : take n s ++ drop n s = s.
Proof.
  revert n; induction s as [|x s IH]; intros [|n]; simpl; auto. rewrite IH; reflexivity.
Qed.

Lemma length_app (a b : string) :
  String.length (a ++ b) = String.length a + String.length b.
Proof. induction a; simpl; auto. Qed.

Lemma app_assoc_str (a b c : string) : (a ++ b) ++ c = a ++ (b ++ c).
Proof. induction a as [|x a IH]; simpl; [reflexivity|]. rewrite IH; reflexivity. Qed.

Lemma app_nil_r_str (a : string) : a ++ EmptyString = a.
Proof. induction a as [|x a IH]; simpl; [reflexivity|]. rewrite IH; reflexivity. Qed.

Lemma app_inv_l (a b c : string) : a ++ b = a ++ c -> b = c.
Proof. induction a as [|x a IH]; simpl; auto. intros H; inversion H; auto. Qed.

(** Two strings cut at the first occurrence of [c]. *)
Lemma app_cut_char (c : ascii) (a b x y : string) :
  has_char c a = false -> has_char c b = false ->
  a ++ String c x = b ++ String c y -> a = b.
Proof.
  revert b; induction a as [|u a IH]; intros [|v b] Ha Hb H; simpl in *.
  - reflexivity.
  - inversion H; subst. rewrite eqc_refl in Hb. discriminate.
  - inversion H; subst. rewrite eqc_refl in Ha. discriminate.
  - apply orb_false_iff in Ha as [Ha1 Ha2]. apply orb_false_iff in Hb as [Hb1 Hb2].
    inversion H; subst. f_equal. eapply IH; eauto.
Qed.

Lemma last_char_snoc (a : string) (c : ascii) :
  last_char (a ++ String c EmptyString) = Some c.
Proof.
  induction a as [|x a IH]; [reflexivity|].
  simpl. destruct (a ++ String c EmptyString) eqn:E.
  - destruct a; discriminate.
  - exact IH.
Qed.

Lemma last_char_some (a : string) (c : ascii) :
  last_char a = Some c -> exists x, a = x ++ String c EmptyString.
Proof.
  induction a as [|y a IH]; simpl; [discriminate|].
  destruct a as [|z a'].
  - intros [= <-]. exists EmptyString; reflexivity.
  - intros H. destruct (IH H) as [x Hx]. exists (String y x). rewrite Hx. reflexivity.
Qed.

End StrFacts.

(** ** Path facts *)

Module PathFacts.
Import Py PosixPath StrFacts.

Lemma rstrip_snoc (c : ascii) (s : string) :
  rstrip c (s ++ String c EmptyString) = rstrip c s.
Proof.
  induction s as [|x s IH].
  - simpl. rewrite eqc_refl. reflexivity.
  - simpl. rewrite IH. reflexivity.
Qed.

Lemma rstrip_empty_iff (c : ascii) (s : string) :
  rstrip c s = EmptyString <-> all_char c s = true.
Proof.
  induction s as [|x s IH]; simpl; [split; auto|].
  destruct (rstrip c s) as [|y r] eqn:R.
  - assert (A : all_char c s = true) by (apply IH; reflexivity). rewrite A, andb_true_r.
    destruct (eqc x c); split; auto; discriminate.
  - assert (A : all_char c s = false).
    { destruct (all_char c s); auto. exfalso. assert (H : String y r = EmptyString) by (apply IH; auto). discriminate. }
    rewrite A, andb_false_r. split; discriminate.
Qed.

Lemma rstrip_idem (c : ascii) (s : string) : rstrip c (rstrip c s) = rstrip c s.
Proof.
  induction s as [|x s IH]; [reflexivity|].
  simpl. destruct (rstrip c s) as [|y r] eqn:R.
  - destruct (eqc x c) eqn:E; [reflexivity|]. simpl. rewrite E. reflexivity.
  - change (rstrip c (String x (String y r)))
      with (match rstrip c (String y r) with
            | EmptyString => if eqc x c then EmptyString else String x EmptyString
            | _ => String x (rstrip c (String y r)) end).
    rewrite IH. reflexivity.
Qed.

Lemma all_char_rstrip (c : ascii) (s : string) :
  all_char c (rstrip c s) = true -> rstrip c s = EmptyString.
Proof.
  intros H. apply rstrip_empty_iff in H. rewrite rstrip_idem in H. exact H.
Qed.

Lemma all_char_snoc (c : ascii) (s : string) :
  all_char c (s ++ String c EmptyString) = all_char c s.
Proof.
  induction s as [|x s IH]; simpl.
  - rewrite eqc_refl. reflexivity.
  - rewrite IH. reflexivity.
Qed.

Lemma split_eq (p : string) :
  split p = (split_head (take (match rfind sep p with Some k => S k | None => O end) p),
             drop (match rfind sep p with Some k => S k | None => O end) p).
Proof. reflexivity. Qed.

Lemma basename_split (p : string) : basename p = snd (split p).
Proof. reflexivity. Qed.

Lemma split_tail_nosep (p : string) : has_char sep (snd (split p)) = false.
Proof.
  rewrite split_eq. simpl. destruct (rfind sep p) as [k|] eqn:R.
  - apply rfind_some_drop; assumption.
  - apply rfind_none; assumption.
Qed.

Lemma split_head_shape (p : string) :
  exists h, fst (split p) = split_head h /\
            (h = EmptyString \/ exists x, h = x ++ String sep EmptyString).
Proof.
  rewrite split_eq. simpl. destruct (rfind sep p) as [k|] eqn:R.
  - eexists; split; [reflexivity|]. right. apply rfind_some_take; assumption.
  - eexists; split; [reflexivity|]. left. reflexivity.
Qed.

Lemma startswith_sep_false (n : string) :
  has_char sep n = false -> startswith_char sep n = false.
Proof. destruct n as [|x n]; simpl; [reflexivity|]. intros H. apply orb_false_iff in H; tauto. Qed.

Lemma join_nosep (a n : string) :
  has_char sep n = false -> join a n = join_prefix a ++ n.
Proof.
  intros H. unfold join, join_prefix. rewrite startswith_sep_false by assumption.
  destruct a as [|x a]; [reflexivity|].
  destruct (endswith_char sep (String x a)); [reflexivity|].
  rewrite app_assoc_str. reflexivity.
Qed.

Lemma join_prefix_shape (a : string) :
  join_prefix a = EmptyString \/ exists x, join_prefix a = x ++ String sep EmptyString.
Proof.
  unfold join_prefix. destruct a as [|y a]; [left; reflexivity|]. right.
  destruct (endswith_char sep (String y a)) eqn:E.
  - unfold endswith_char in E. destruct (last_char (String y a)) as [z|] eqn:L; [|discriminate].
    apply eqc_true in E; subst. apply last_char_some; assumption.
  - exists (String y a). reflexivity.
Qed.

(** [os.path.split] of a joined path whose last part has no separator. *)
Lemma split_join_prefix (a n : string) :
  has_char sep n = false -> split (join_prefix a ++ n) = (split_head (join_prefix a), n).
Proof.
  intros Hn. rewrite split_eq.
  destruct (join_prefix_shape a) as [E|[x E]]; rewrite E.
  - simpl. replace (rfind sep n) with (@None nat).
    + reflexivity.
    + symmetry. exact (rfind_app_nochar sep EmptyString n Hn).
  - rewrite (rfind_app_nochar sep (x ++ String sep EmptyString) n Hn), rfind_snoc.
    replace (S (String.length x)) with (String.length (x ++ String sep EmptyString))
      by (rewrite length_app; simpl; lia).
    rewrite take_app, drop_app. reflexivity.
Qed.

Lemma dirname_join (a n : string) :
  has_char sep n = false -> dirname (join a n) = split_head (join_prefix a).
Proof.
  intros Hn. unfold dirname. rewrite join_nosep, split_join_prefix by assumption. reflexivity.
Qed.

Lemma split_head_nonempty (h : string) :
  h <> EmptyString ->
  split_head h = if all_char sep h then h else rstrip sep h.
Proof. destruct h; [congruence|reflexivity]. Qed.

Lemma join_prefix_end (d : string) :
  endswith_char sep d = true -> join_prefix d = d.
Proof. unfold join_prefix. destruct d as [|y r]; [reflexivity|]. intros ->. reflexivity. Qed.

Lemma join_prefix_noend (d : string) :
  d <> EmptyString -> endswith_char sep d = false ->
  join_prefix d = d ++ String sep EmptyString.
Proof. unfold join_prefix. destruct d as [|y r]; [congruence|]. intros _ ->. reflexivity. Qed.

Lemma endswith_snoc (x : string) : endswith_char sep (x ++ String sep EmptyString) = true.
Proof. unfold endswith_char. rewrite last_char_snoc. apply eqc_refl. Qed.

(** Joining onto a directory part returned by [os.path.split] and
    splitting again gives the same directory part back. *)
Lemma split_head_join_prefix (h : string) :
  (h = EmptyString \/ exists x, h = x ++ String sep EmptyString) ->
  split_head (join_prefix (split_head h)) = split_head h.
Proof.
  intros [->|[x ->]]; [reflexivity|].
  assert (NE : x ++ String sep EmptyString <> EmptyString) by (destruct x; discriminate).
  rewrite (split_head_nonempty _ NE).
  destruct (all_char sep (x ++ String sep EmptyString)) eqn:A.
  - rewrite join_prefix_end by apply endswith_snoc.
    rewrite (split_head_nonempty _ NE), A. reflexivity.
  - set (d := rstrip sep (x ++ String sep EmptyString)).
    assert (Dne : d <> EmptyString).
    { intros D. apply rstrip_empty_iff in D. congruence. }
    assert (Dall : all_char sep d = false).
    { destruct (all_char sep d) eqn:Ad; [|reflexivity]. exfalso. apply Dne, all_char_rstrip, Ad. }
    destruct (endswith_char sep d) eqn:En.
    + rewrite join_prefix_end by assumption.
      rewrite (split_head_nonempty _ Dne), Dall. unfold d. apply rstrip_idem.
    + rewrite join_prefix_noend by assumption.
      assert (NE2 : d ++ String sep EmptyString <> EmptyString) by (destruct d; discriminate).
      rewrite (split_head_nonempty _ NE2), all_char_snoc, Dall, rstrip_snoc.
      unfold d. apply rstrip_idem.
Qed.

Lemma dirname_join_dirname (p n : string) :
  has_char sep n = false -> dirname (join (dirname p) n) = dirname p.
Proof.
  intros Hn. rewrite dirname_join by assumption.
  destruct (split_head_shape p) as [h [Hh Hshape]]. unfold dirname. rewrite Hh.
  apply split_head_join_prefix; assumption.
Qed.

End PathFacts.

(** ** Collision resolver facts *)

Module ResolverFacts.
Import Py PosixPath StrFacts PathFacts.

Lemma path_exists_in (fs : list string) (p : string) :
  path_exists fs p = true <-> In p fs.
Proof.
  unfold path_exists. rewrite existsb_exists. split.
  - intros [x [Hx E]]. apply String.eqb_eq in E. subst. exact Hx.
  - intros H. exists p. split; [exact H|apply String.eqb_refl].
Qed.

Lemma str_of_nat_nosep (n : nat) : has_char sep (str_of_nat n) = false.
Proof. unfold str_of_nat. induction (Nat.to_uint n); simpl; auto. Qed.

Lemma str_of_nat_noparen (n : nat) : has_char ")"%char (str_of_nat n) = false.
Proof. unfold str_of_nat. induction (Nat.to_uint n); simpl; auto. Qed.

Lemma str_of_nat_inj (i j : nat) : str_of_nat i = str_of_nat j -> i = j.
Proof.
  unfold str_of_nat. intros H. apply (f_equal NilEmpty.uint_of_string) in H.
  rewrite !NilEmpty.usu in H. injection H as H. apply DecimalNat.Unsigned.to_uint_inj, H.
Qed.

Lemma splitext_nochar (c : ascii) (name : string) :
  has_char c name = false ->
  has_char c (fst (splitext name)) = false /\ has_char c (snd (splitext name)) = false.
Proof.
  intros H. unfold splitext.
  destruct (rfind "."%char name) as [d|]; [|simpl; auto].
  destruct (Nat.ltb d _); [simpl; auto|].
  destruct (all_char "."%char _); simpl; auto.
  split; [apply has_char_take|apply has_char_drop]; exact H.
Qed.

(** The disambiguated name [f"{root}({i}){ext}"] has no separator. *)
Lemma candidate_name_nosep (dst : string) (i : nat) :
  has_char sep (fst (splitext (snd (split dst))) ++ "(" ++ str_of_nat i ++ ")" ++
                snd (splitext (snd (split dst)))) = false.
Proof.
  destruct (splitext_nochar sep _ (split_tail_nosep dst)) as [H1 H2].
  rewrite has_char_app, H1. simpl. rewrite has_char_app, str_of_nat_nosep. simpl. exact H2.
Qed.

Lemma collision_candidate_eq (dst : string) (i : nat) :
  collision_candidate dst i =
  join (dirname dst) (fst (splitext (snd (split dst))) ++ "(" ++ str_of_nat i ++ ")" ++
                      snd (splitext (snd (split dst)))).
Proof.
  unfold collision_candidate, dirname.
  destruct (split dst) as [dirn name]. simpl. destruct (splitext name). reflexivity.
Qed.

Lemma collision_candidate_dirname (dst : string) (i : nat) :
  dirname (collision_candidate dst i) = dirname dst.
Proof.
  rewrite collision_candidate_eq. apply dirname_join_dirname, candidate_name_nosep.
Qed.

Lemma collision_candidate_inj (dst : string) (i j : nat) :
  collision_candidate dst i = collision_candidate dst j -> i = j.
Proof.
  rewrite !collision_candidate_eq, !join_nosep by apply candidate_name_nosep.
  intros H. apply app_inv_l, app_inv_l in H. simpl in H. injection H as H.
  apply str_of_nat_inj. apply (app_cut_char ")"%char _ _ _ _ (str_of_nat_noparen i) (str_of_nat_noparen j) H).
Qed.

Lemma backup_candidate_inj (src : string) (i j : nat) :
  backup_candidate src i = backup_candidate src j -> i = j.
Proof.
  unfold backup_candidate. intros H. apply app_inv_l in H. simpl in H.
  injection H as H.
  apply str_of_nat_inj. apply (app_cut_char ")"%char _ _ _ _ (str_of_nat_noparen i) (str_of_nat_noparen j) H).
Qed.

Lemma probe_cand (fs : list string) (cand : nat -> string) (fuel i : nat) :
  exists j, i <= j /\ probe fs cand fuel i = cand j.
Proof.
  revert i; induction fuel as [|f IH]; intros i; simpl.
  - exists i; split; [lia|reflexivity].
  - destruct (path_exists fs (cand i)).
    + destruct (IH (S i)) as [j [Hj E]]. exists j; split; [lia|exact E].
    + exists i; split; [lia|reflexivity].
Qed.

(** The probing loop returns the first free candidate from [i] on, as long
    as one exists within [fuel] probes. *)
Lemma probe_first_free (fs : list string) (cand : nat -> string) (fuel i : nat) :
  (exists j, i <= j < i + fuel /\ path_exists fs (cand j) = false) ->
  exists j, i <= j /\ probe fs cand fuel i = cand j /\ path_exists fs (cand j) = false /\
            forall k, i <= k < j -> path_exists fs (cand k) = true.
Proof.
  revert i; induction fuel as [|f IH]; intros i [j0 [Hj0 F0]]; [lia|].
  simpl. destruct (path_exists fs (cand i)) eqn:Ei.
  - assert (Hne : j0 <> i) by (intros ->; congruence).
    destruct (IH (S i)) as [j [Hj [E [F M]]]].
    { exists j0; split; [lia|exact F0]. }
    exists j; repeat split; try lia; auto.
    intros k Hk. destruct (Nat.eq_dec k i) as [->|Hki]; [exact Ei|apply M; lia].
  - exists i; repeat split; auto; lia.
Qed.

Lemma NoDup_map_inj {A B : Type} (f : A -> B) (l : list A) :
  (forall x y, f x = f y -> x = y) -> NoDup l -> NoDup (map f l).
Proof.
  intros Inj N. induction N as [|x l Hx N IH]; simpl; constructor; auto.
  intros Hin. apply in_map_iff in Hin as [y [E Hy]]. apply Inj in E. subst. contradiction.
Qed.

(** Among [length fs + 1] distinct candidates one does not exist. *)
Lemma free_candidate (fs : list string) (cand : nat -> string) :
  (forall i j, cand i = cand j -> i = j) ->
  exists j, 1 <= j < 1 + S (List.length fs) /\ path_exists fs (cand j) = false.
Proof.
  intros Inj.
  destruct (existsb (fun j => negb (path_exists fs (cand j))) (seq 1 (S (List.length fs)))) eqn:F.
  - apply existsb_exists in F as [j [Hj Nj]]. apply in_seq in Hj.
    exists j; split; [lia|]. destruct (path_exists fs (cand j)); [discriminate|reflexivity].
  - exfalso.
    assert (Incl : incl (map cand (seq 1 (S (List.length fs)))) fs).
    { intros p Hp. apply in_map_iff in Hp as [j [<- Hj]]. apply path_exists_in.
      destruct (path_exists fs (cand j)) eqn:E; [reflexivity|].
      assert (T : existsb (fun j => negb (path_exists fs (cand j))) (seq 1 (S (List.length fs))) = true).
      { apply existsb_exists. exists j. rewrite E. auto. }
      congruence. }
    pose proof (NoDup_incl_length (NoDup_map_inj cand _ Inj (seq_NoDup _ _)) Incl) as L.
    rewrite length_map, length_seq in L. lia.
Qed.

Lemma next_nonconflicting_path_cases (fs : list string) (dst : string) :
  (path_exists fs dst = false /\ next_nonconflicting_path fs dst = dst) \/
  (path_exists fs dst = true /\
   exists i, 1 <= i /\ next_nonconflicting_path fs dst = collision_candidate dst i /\
             path_exists fs (collision_candidate dst i) = false /\
             forall k, 1 <= k < i -> path_exists fs (collision_candidate dst k) = true).
Proof.
  unfold next_nonconflicting_path. destruct (path_exists fs dst) eqn:E; cbn [negb].
  - right. split; [reflexivity|].
    apply probe_first_free, free_candidate, collision_candidate_inj.
  - left. auto.
Qed.

Lemma next_nonconflicting_path_dirname (fs : list string) (dst : string) :
  dirname (next_nonconflicting_path fs dst) = dirname dst.
Proof.
  unfold next_nonconflicting_path. destruct (path_exists fs dst); cbn [negb]; [|reflexivity].
  destruct (probe_cand fs (collision_candidate dst) (S (List.length fs)) 1) as [j [_ ->]].
  apply collision_candidate_dirname.
Qed.

End ResolverFacts.

(** ** Planner facts *)

Module PlanFacts.
Import Py PosixPath StrFacts PathFacts ResolverFacts.

Section WithEngine.
Context {E : ReEngine}.

(** What the planner knows about each operation it emits. *)
Lemma plan_loop_in (fs : list string) (cfg : config) (targets : list (string * bool))
  (ops : list rename_op) (src dst : string) (d : bool) :
  plan_loop fs cfg targets = Ok ops -> In (src, dst, d) ops ->
  exists nn,
    In (src, d) targets /\ eligible src d (exts cfg) = true /\
    new_name_for cfg (snd (split src)) = Ok (Some nn) /\
    String.eqb nn (snd (split src)) = false /\
    dst = next_nonconflicting_path fs (join (fst (split src)) nn).
Proof.
  revert ops; induction targets as [|[path is_dir] rest IH]; intros ops H Hin; cbn [plan_loop] in H.
  - injection H as <-. destruct Hin.
  - destruct (eligible path is_dir (exts cfg)) eqn:El; cbn [negb] in H.
    2: { destruct (IH ops H Hin) as [nn Hnn]. exists nn. simpl. intuition. }
    destruct (split path) as [dirn name] eqn:Hs.
    destruct (new_name_for cfg name) as [[nn|]|e] eqn:Hn; try discriminate.
    2: { destruct (IH ops H Hin) as [nn Hnn]. exists nn. simpl. intuition. }
    destruct (String.eqb nn name) eqn:Eq.
    { destruct (IH ops H Hin) as [nn' Hnn]. exists nn'. simpl. intuition. }
    destruct (plan_loop fs cfg rest) as [ops'|e] eqn:Hr; [|discriminate].
    injection H as <-. destruct Hin as [Hh|Hin].
    + injection Hh as <- <- <-. exists nn. rewrite Hs. simpl. repeat split; auto.
    + destruct (IH ops' eq_refl Hin) as [nn' Hnn]. exists nn'. simpl. intuition.
Qed.


Lemma new_name_for_hit (cfg : config) (name nn : string) :
  new_name_for cfg name = Ok (Some nn) ->
  (if regex cfg then
     match re_compile (find_term cfg) (negb (case_sensitive cfg)) with
     | Ok rx => re_search rx name
     | Raise _ => false
     end
   else name_matches name (find_term cfg) (case_sensitive cfg)) = true.
Proof.
  unfold new_name_for. destruct (regex cfg).
  - unfold regex_replace_name.
    destruct (re_compile (find_term cfg) (negb (case_sensitive cfg))) as [rx|e]; [|discriminate].
    destruct (re_search rx name); [reflexivity|]. simpl. discriminate.
  - destruct (name_matches name (find_term cfg) (case_sensitive cfg)); [reflexivity|]. discriminate.
Qed.

Lemma find_loop_complete (cfg : config) (targets : list (string * bool)) (src : string) (d : bool) :
  In (src, d) targets -> eligible src d (exts cfg) = true ->
  (if regex cfg then
     match re_compile (find_term cfg) (negb (case_sensitive cfg)) with
     | Ok rx => re_search rx (basename src)
     | Raise _ => false
     end
   else name_matches (basename src) (find_term cfg) (case_sensitive cfg)) = true ->
  In (src, d) (find_loop cfg targets).
Proof.
  intros Hin El Hit. induction targets as [|[path is_dir] rest IH]; [destruct Hin|].
  simpl. destruct Hin as [Heq|Hin].
  - injection Heq as -> ->. rewrite El. simpl. rewrite Hit. left; reflexivity.
  - specialize (IH Hin).
    destruct (eligible path is_dir (exts cfg)); simpl; [|exact IH].
    match goal with |- In _ (if ?b then _ else _) => destruct b end; [right|]; exact IH.
Qed.

End WithEngine.
End PlanFacts.

(** ** Claims *)

Module ExecFacts.

Lemma count_ev_app (p : event -> bool) (l1 l2 : list event) :
  count_ev p (l1 ++ l2) = (count_ev p l1 + count_ev p l2)%Z.
Proof. unfold count_ev. rewrite filter_app, length_app. lia. Qed.

Lemma count_ev_one (p : event -> bool) (e : event) :
  count_ev p [e] = if p e then 1%Z else 0%Z.
Proof. unfold count_ev. simpl. destruct (p e); reflexivity. Qed.

Section WithSys.
Context {S : Sys}.

(** The counters agree with the log: [renamed] counts the successful
    rename records, [errors] the failed ones. *)
Definition counts_ok (st : exec_state S) : Prop :=
  x_renamed st = count_ev is_rename_ok (x_log st) /\
  x_errors st = count_ev is_failed (x_log st).

Lemma exec_item_counts (dry backup : bool) (st : exec_state S) (op : rename_op) :
  counts_ok st -> counts_ok (exec_item dry backup st op).
Proof.
  destruct op as [[src dst] d], st as [w r e log]. unfold counts_ok. simpl.
  intros [Hr He].
  destruct dry.
  - destruct (backup && negb d); simpl;
      rewrite !count_ev_app, !count_ev_one; simpl; try rewrite count_ev_app, count_ev_one;
      simpl; lia.
  - destruct (backup && negb d).
    + destruct (sys_copy2 w src (backup_nonconflicting_path (w_paths w) src)) as [w1 [err|]]; simpl.
      * rewrite !count_ev_app, !count_ev_one; simpl; lia.
      * destruct (sys_rename w1 src dst) as [w2 [err|]]; simpl;
          rewrite !count_ev_app, !count_ev_one; simpl; lia.
    + destruct (sys_rename w src dst) as [w2 [err|]]; simpl;
        rewrite !count_ev_app, !count_ev_one; simpl; lia.
Qed.

Lemma exec_items_counts (dry backup : bool) (ops : list rename_op) :
  forall st : exec_state S, counts_ok st -> counts_ok (exec_items dry backup st ops).
Proof.
  induction ops as [|op ops IH]; intros st H; simpl; [exact H|].
  apply IH, exec_item_counts, H.
Qed.

Lemma run_changes_counts (w : world) (dry backup ae : bool) (changes : list rename_op)
  (inputs : list string) (s : summary) (st : exec_state S) :
  run_changes w dry backup ae changes inputs = Some (Completed s st) ->
  total_found s = Z.of_nat (List.length changes) /\
  renamed s = count_ev is_rename_ok (x_log st) /\
  errors s = count_ev is_failed (x_log st) /\
  skipped s = (if ae then total_found s - renamed s - errors s else 0)%Z.
Proof.
  unfold run_changes.
  destruct (Z.of_nat (List.length changes) =? 0)%Z; [discriminate|].
  set (to_apply := if ae then _ else _).
  destruct to_apply as [ops|]; [|discriminate].
  intros H. injection H as <- <-. simpl.
  destruct (exec_items_counts dry backup ops (mk_exec w 0%Z 0%Z []) (conj eq_refl eq_refl))
    as [Hr He].
  repeat split; auto.
Qed.

(** Each executed item adds one to [renamed] or to [errors]. *)
Lemma exec_item_progress (dry backup : bool) (st : exec_state S) (op : rename_op) :
  (x_renamed (exec_item dry backup st op) + x_errors (exec_item dry backup st op)
   = x_renamed st + x_errors st + 1)%Z.
Proof.
  destruct op as [[src dst] d], st as [w r e log]. simpl.
  destruct dry; [destruct (backup && negb d); simpl; lia|].
  destruct (backup && negb d).
  - destruct (sys_copy2 w src (backup_nonconflicting_path (w_paths w) src)) as [w1 [err|]]; simpl;
      [lia|destruct (sys_rename w1 src dst) as [w2 [err|]]; simpl; lia].
  - destruct (sys_rename w src dst) as [w2 [err|]]; simpl; lia.
Qed.

End WithSys.
End ExecFacts.

Module Claims.
Import Py PosixPath StrFacts PathFacts ResolverFacts PlanFacts.

(** C5: the collision resolver returns [dst] itself when it does not
    exist, and otherwise [stem(i)ext] for the smallest [i >= 1] whose
    candidate does not exist (every smaller candidate exists); the result
    never exists. *)
Theorem next_nonconflicting_path_smallest_free (fs : list string) (dst : string) :
  ((path_exists fs dst = false /\ next_nonconflicting_path fs dst = dst) \/
   (path_exists fs dst = true /\
    exists i, 1 <= i /\ next_nonconflicting_path fs dst = collision_candidate dst i /\
              path_exists fs (collision_candidate dst i) = false /\
              forall k, 1 <= k < i -> path_exists fs (collision_candidate dst k) = true))
  /\ path_exists fs (next_nonconflicting_path fs dst) = false.
Proof.
  split; [apply next_nonconflicting_path_cases|].
  destruct (next_nonconflicting_path_cases fs dst) as [[F ->]|[_ [i [_ [-> [F _]]]]]]; exact F.
Qed.

(** C9: backup paths are [src.bak] when free, otherwise [src.bak(i)] for
    the smallest [i >= 1] whose candidate does not exist; the number goes
    after the [.bak] suffix. *)
Theorem backup_nonconflicting_path_smallest_free (fs : list string) (src : string) :
  (path_exists fs (src ++ ".bak") = false /\ backup_nonconflicting_path fs src = src ++ ".bak") \/
  (path_exists fs (src ++ ".bak") = true /\
   exists i, 1 <= i /\
     backup_nonconflicting_path fs src = src ++ ".bak(" ++ str_of_nat i ++ ")" /\
     path_exists fs (src ++ ".bak(" ++ str_of_nat i ++ ")") = false /\
     forall k, 1 <= k < i -> path_exists fs (src ++ ".bak(" ++ str_of_nat k ++ ")") = true).
Proof.
  unfold backup_nonconflicting_path. destruct (path_exists fs (src ++ ".bak")) eqn:E; cbn [negb].
  - right. split; [reflexivity|].
    exact (probe_first_free fs (backup_candidate src) _ 1
             (free_candidate fs (backup_candidate src) (backup_candidate_inj src))).
  - left. auto.
Qed.

(** C4 (as corrected): when the new base name computed for a planned
    entry contains no separator, the destination stays in the source's
    directory. *)
Theorem plan_changes_same_directory {E : ReEngine} (fs : list string) (walk : walk_t)
  (cfg : config) (ops : list rename_op) (src dst : string) (d : bool) (nn : string) :
  plan_changes fs walk cfg = Ok ops -> In (src, dst, d) ops ->
  new_name_for cfg (basename src) = Ok (Some nn) -> has_char sep nn = false ->
  dirname dst = dirname src.
Proof.
  intros Hp Hin Hn Hsep.
  destruct (plan_loop_in fs cfg _ ops src dst d Hp Hin) as [nn' (_ & _ & Hn' & _ & ->)].
  rewrite basename_split, Hn' in Hn. injection Hn as ->.
  rewrite next_nonconflicting_path_dirname.
  exact (dirname_join_dirname src nn Hsep).
Qed.

(** C8: an entry whose new base name equals its base name is never in
    the plan. *)
Theorem plan_changes_excludes_noop {E : ReEngine} (fs : list string) (walk : walk_t)
  (cfg : config) (ops : list rename_op) (src : string) :
  plan_changes fs walk cfg = Ok ops ->
  new_name_for cfg (basename src) = Ok (Some (basename src)) ->
  forall dst d, ~ In (src, dst, d) ops.
Proof.
  intros Hp Hn dst d Hin.
  destruct (plan_loop_in fs cfg _ ops src dst d Hp Hin) as [nn (_ & _ & Hn' & Neq & _)].
  rewrite basename_split, Hn' in Hn. injection Hn as ->.
  rewrite String.eqb_refl in Neq. discriminate.
Qed.

(** C10: every source planned for renaming is reported, with the same
    directory flag, by the find-only search under the same configuration. *)
Theorem plan_changes_refines_find_matches {E : ReEngine} (fs : list string) (walk : walk_t)
  (cfg : config) (ops : list rename_op) (src dst : string) (d : bool) :
  plan_changes fs walk cfg = Ok ops -> In (src, dst, d) ops ->
  In (src, d) (find_matches walk cfg).
Proof.
  intros Hp Hin.
  destruct (plan_loop_in fs cfg _ ops src dst d Hp Hin) as [nn (Ht & El & Hn & _ & _)].
  apply find_loop_complete; [exact Ht|exact El|].
  rewrite basename_split. exact (new_name_for_hit cfg _ nn Hn).
Qed.




(** C4: a replacement with a separator moves the destination:
    [/r/ab] with find [b] and replacement [x/y] is planned as [/r/ax/y]. *)
Lemma plan_changes_same_directory_counterexample :
  ~ (forall fs walk cfg ops src dst d,
       plan_changes (E := lit_engine) fs walk cfg = Ok ops -> In (src, dst, d) ops ->
       dirname dst = dirname src).
Proof.
  intros H.
  specialize (H ["/r"; "/r/ab"] [("/r", [], ["ab"])] (mk_config "b" "x/y" false false [] false)
                [("/r/ab", "/r/ax/y", false)] "/r/ab" "/r/ax/y" false).
  assert (P : plan_changes (E := lit_engine) ["/r"; "/r/ab"] [("/r", [], ["ab"])]
                (mk_config "b" "x/y" false false [] false) = Ok [("/r/ab", "/r/ax/y", false)])
    by (vm_compute; reflexivity).
  specialize (H P (or_introl eq_refl)). vm_compute in H. discriminate.
Qed.

Lemma plan_changes_same_directory_witness :
  plan_changes (E := lit_engine) demo_fs demo_walk (mk_config "Report" "Rpt" false false [] false)
    = Ok [("/t/Report-123.txt", "/t/Rpt-123.txt", false);
          ("/t/Report-456.pdf", "/t/Rpt-456.pdf", false);
          ("/t/Reports/Report-789.txt", "/t/Reports/Rpt-789.txt", false)] /\
  dirname "/t/Reports/Rpt-789.txt" = dirname "/t/Reports/Report-789.txt".
Proof.
  assert (P : plan_changes (E := lit_engine) demo_fs demo_walk (mk_config "Report" "Rpt" false false [] false)
    = Ok [("/t/Report-123.txt", "/t/Rpt-123.txt", false);
          ("/t/Report-456.pdf", "/t/Rpt-456.pdf", false);
          ("/t/Reports/Report-789.txt", "/t/Reports/Rpt-789.txt", false)])
    by (vm_compute; reflexivity).
  split; [exact P|].
  apply (plan_changes_same_directory demo_fs demo_walk _ _ _ _ false "Rpt-789.txt" P).
  - right; right; left; reflexivity.
  - vm_compute; reflexivity.
  - vm_compute; reflexivity.
Defined.

Lemma plan_changes_excludes_noop_witness :
  plan_changes (E := lit_engine) case_fs case_walk case_cfg
    = Ok [("/t/report.txt", "/t/Report(1).txt", false)] /\
  new_name_for (E := lit_engine) case_cfg (basename "/t/Report.txt") = Ok (Some (basename "/t/Report.txt")) /\
  ~ In ("/t/Report.txt", "/t/Report.txt", false) [("/t/report.txt", "/t/Report(1).txt", false)].
Proof.
  assert (P : plan_changes (E := lit_engine) case_fs case_walk case_cfg
    = Ok [("/t/report.txt", "/t/Report(1).txt", false)]) by (vm_compute; reflexivity).
  assert (N : new_name_for (E := lit_engine) case_cfg (basename "/t/Report.txt")
              = Ok (Some (basename "/t/Report.txt"))) by (vm_compute; reflexivity).
  split; [exact P|]. split; [exact N|].
  exact (plan_changes_excludes_noop case_fs case_walk case_cfg _ "/t/Report.txt" P N
           "/t/Report.txt" false).
Defined.

Lemma plan_changes_refines_find_matches_witness :
  plan_changes (E := lit_engine) case_fs case_walk case_cfg
    = Ok [("/t/report.txt", "/t/Report(1).txt", false)] /\
  In ("/t/report.txt", false) (find_matches (E := lit_engine) case_walk case_cfg).
Proof.
  assert (P : plan_changes (E := lit_engine) case_fs case_walk case_cfg
    = Ok [("/t/report.txt", "/t/Report(1).txt", false)]) by (vm_compute; reflexivity).
  split; [exact P|].
  exact (plan_changes_refines_find_matches case_fs case_walk case_cfg _ _ _ _ P (or_introl eq_refl)).
Defined.

(** C1 (code bug): a [q] answer ends the prompt for that item only; the
    loop goes on with the next items, exactly as after [n]: with answers
    [q] then [y], the second item is prompted and applied. *)
Theorem approve_loop_quit_continues :
  (forall (op : rename_op) (rest : list rename_op) (inputs : list string),
     approve_loop (op :: rest) ("q" :: inputs) = approve_loop (op :: rest) ("n" :: inputs)) /\
  (forall op1 op2 : rename_op, approve_loop [op1; op2] ["q"; "y"] = Some ([op2], 2, [])).
Proof. split; intros; reflexivity. Qed.

(** C2 (code bug): the case-insensitive branch hands the replacement to
    [re.sub] as a template: a replacement of two backslashes is inserted
    as one, and [\1] raises [re.error]; the case-sensitive branch and the
    literal replacement insert the text as given. *)
Theorem ci_replace_template_divergence :
  ci_replace "ab" "b" "\\" false = Ok "a\" /\
  ci_replace_spec "ab" "b" "\\" = "a\\" /\
  ci_replace "ab" "b" "\\" true = Ok "a\\" /\
  ci_replace "ab" "b" "\1" false = Raise ReError /\
  ci_replace_spec "ab" "b" "\1" = "a\1".
Proof. repeat split; vm_compute; reflexivity. Qed.

(** C6 (as corrected): [found] is the number of planned operations,
    [renamed] the number of successful or dry-run rename records, [errors]
    the number of failed records, and with approve-each [skipped] is
    [found - renamed - errors]. With approve-each over three operations
    and answers [y], [n], [n]: [found = 3] and [skipped = 2]; the summary
    has [renamed = 1] and [errors = 0] in a dry run, or when the approved
    item's backup copy (made for a file when backup is on) and its rename
    both succeed, and [renamed = 0], [errors = 1] otherwise. *)
Theorem run_changes_counters :
  (forall (S : Sys) (w : world) dry backup ae changes inputs s st,
     run_changes w dry backup ae changes inputs = Some (Completed s st) ->
     total_found s = Z.of_nat (List.length changes) /\
     renamed s = count_ev is_rename_ok (x_log st) /\
     errors s = count_ev is_failed (x_log st) /\
     skipped s = (if ae then total_found s - renamed s - errors s else 0)%Z) /\
  (forall (S : Sys) (w : world) dry backup (src dst : string) (d : bool) (op2 op3 : rename_op),
     let ok :=
       dry = true \/
       (if backup && negb d
        then snd (sys_copy2 w src (backup_nonconflicting_path (w_paths w) src)) = None /\
             snd (sys_rename (fst (sys_copy2 w src (backup_nonconflicting_path (w_paths w) src)))
                    src dst) = None
        else snd (sys_rename w src dst) = None) in
     exists s st,
       run_changes w dry backup true [(src, dst, d); op2; op3] ["y"; "n"; "n"]
         = Some (Completed s st) /\
       total_found s = 3%Z /\ skipped s = 2%Z /\
       ((renamed s = 1%Z /\ errors s = 0%Z /\ ok) \/
        (renamed s = 0%Z /\ errors s = 1%Z /\ ~ ok))).
Proof.
  split; [intros S w dry backup ae changes inputs s st; apply ExecFacts.run_changes_counts|].
  intros S w dry backup src dst d op2 op3 ok.
  set (st := exec_item dry backup (mk_exec w 0%Z 0%Z []) (src, dst, d)).
  exists (mk_summary 3 (x_renamed st) (3 - x_renamed st - x_errors st) (x_errors st)), st.
  split; [reflexivity|]. cbn [total_found skipped renamed errors].
  assert (K : (x_renamed st = 1%Z /\ x_errors st = 0%Z /\ ok) \/
              (x_renamed st = 0%Z /\ x_errors st = 1%Z /\ ~ ok)).
  { subst st ok. unfold exec_item. destruct dry.
    - left. cbn [x_renamed x_errors]. auto.
    - destruct (backup && negb d) eqn:B.
      + destruct (sys_copy2 w src (backup_nonconflicting_path (w_paths w) src)) as [w1 [e1|]] eqn:C.
        * right. cbn. split; [reflexivity|]. split; [reflexivity|].
          intros [H|[H _]]; discriminate.
        * destruct (sys_rename w1 src dst) as [w2 [e2|]] eqn:R; cbn.
          -- right. split; [reflexivity|]. split; [reflexivity|].
             intros [H|[_ H]]; [discriminate|]. try rewrite R in H; discriminate.
          -- left. split; [reflexivity|]. split; [reflexivity|]. right. rewrite ?R. auto.
      + destruct (sys_rename w src dst) as [w2 [e2|]] eqn:R; cbn.
        * right. split; [reflexivity|]. split; [reflexivity|].
          intros [H|H]; [discriminate|]. try rewrite R in H; discriminate.
        * left. split; [reflexivity|]. split; [reflexivity|]. right. rewrite ?R. reflexivity. }
  split; [reflexivity|].
  destruct K as [(-> & -> & K)|(-> & -> & K)]; split; (lia || auto).
Qed.

(** C6: the approved rename fails (its source is gone): the summary is
    [renamed = 0], [skipped = 2], [errors = 1]. *)
Lemma run_changes_counters_counterexample :
  run_changes (S := list_sys) ["/t"] false false true
    [("/t/a", "/t/b", false); ("/t/c", "/t/d", false); ("/t/e", "/t/f", false)]
    ["y"; "n"; "n"]
  = Some (Completed (mk_summary 3 0 2 1)
            (mk_exec (S := list_sys) ["/t"] 0%Z 1%Z [EvRename "/t/a" "/t/b" (Some FileNotFoundError)])).
Proof. vm_compute. reflexivity. Qed.

(** C7: a failed backup copy of a file ends the item: [errors] goes up by
    one, [renamed] is unchanged, [os.rename] is not called (the world is
    the one after the copy and no rename record is written), and the loop
    goes on with the next item. *)
Theorem exec_item_backup_fail_closed {S : Sys} (w : world) (r e : Z) (log : list event)
  (src dst : string) (rest : list rename_op) (w1 : world) (err : os_err) :
  sys_copy2 w src (backup_nonconflicting_path (w_paths w) src) = (w1, Some err) ->
  exec_item false true (mk_exec w r e log) (src, dst, false)
    = mk_exec w1 r (e + 1)%Z
        (log ++ [EvBackup src (backup_nonconflicting_path (w_paths w) src) false])%list /\
  exec_items false true (mk_exec w r e log) ((src, dst, false) :: rest)
    = exec_items false true
        (mk_exec w1 r (e + 1)%Z
           (log ++ [EvBackup src (backup_nonconflicting_path (w_paths w) src) false])%list) rest.
Proof.
  intros H.
  assert (X : exec_item false true (mk_exec w r e log) (src, dst, false)
    = mk_exec w1 r (e + 1)%Z
        (log ++ [EvBackup src (backup_nonconflicting_path (w_paths w) src) false])%list).
  { unfold exec_item. cbn [andb negb]. rewrite H. reflexivity. }
  split; [exact X|]. cbn [exec_items]. rewrite X. reflexivity.
Qed.

Lemma exec_item_backup_fail_closed_witness :
  sys_copy2 (Sys := list_sys) ["/t"] "/t/a.txt" "/t/a.txt.bak" = (["/t"], Some FileNotFoundError) /\
  exec_item (S := list_sys) false true (mk_exec (S := list_sys) ["/t"] 0%Z 0%Z []) ("/t/a.txt", "/t/b.txt", false)
    = mk_exec (S := list_sys) ["/t"] 0%Z 1%Z [EvBackup "/t/a.txt" "/t/a.txt.bak" false].
Proof.
  split; [reflexivity|].
  refine (proj1 (exec_item_backup_fail_closed (S := list_sys) ["/t"] 0%Z 0%Z [] "/t/a.txt" "/t/b.txt" []
                   ["/t"] FileNotFoundError _)).
  vm_compute. reflexivity.
Defined.
End Claims.

(** ** Further properties of the code *)

Module Extras.
Import Py PosixPath StrFacts PathFacts ResolverFacts PlanFacts.

(** *** Execution and approvals *)

Definition is_dry_event (e : event) : Prop :=
  match e with
  | EvDryRunBackup _ _ | EvDryRunRename _ _ => True
  | _ => False
  end.

(** A dry run leaves the world as it is (neither [copy2] nor [rename] is
    called), counts every item as renamed, records no error, and writes
    only dry-run records. *)
Theorem exec_items_dry_run {S : Sys} (backup : bool) (ops : list rename_op) (st : exec_state S) :
  x_world (exec_items true backup st ops) = x_world st /\
  x_renamed (exec_items true backup st ops) = (x_renamed st + Z.of_nat (List.length ops))%Z /\
  x_errors (exec_items true backup st ops) = x_errors st /\
  exists recs, x_log (exec_items true backup st ops) = (x_log st ++ recs)%list /\
               Forall is_dry_event recs.
Proof.
  revert st; induction ops as [|[[src dst] d] ops IH]; intros [w r e log].
  - simpl. repeat split; try lia. exists []. rewrite app_nil_r. auto.
  - cbn [exec_items]. destruct (IH (exec_item true backup (mk_exec w r e log) (src, dst, d)))
      as (Hw & Hr & He & recs & Hl & Hf).
    rewrite Hw, Hr, He, Hl. simpl. cbn [List.length].
    destruct (backup && negb d); simpl; repeat split; try lia.
    + exists ([EvDryRunBackup src (backup_nonconflicting_path (w_paths w) src);
               EvDryRunRename src dst] ++ recs)%list.
      rewrite <- !app_assoc. split; [reflexivity|].
      repeat constructor; simpl; auto.
    + exists ([EvDryRunRename src dst] ++ recs)%list.
      rewrite <- !app_assoc. split; [reflexivity|]. repeat constructor; simpl; auto.
Qed.

Lemma exec_items_dirs_same {S : Sys} (dry backup : bool) (ops : list rename_op)
  (st : exec_state S) :
  Forall (fun op : rename_op => snd op = true) ops ->
  exec_items dry backup st ops = exec_items dry false st ops.
Proof.
  revert st; induction ops as [|[[src dst] d] ops IH]; intros st HF; [reflexivity|].
  inversion HF as [|? ? Hd Hrest]; subst. simpl in Hd; subst d.
  cbn [exec_items]. rewrite IH by exact Hrest. f_equal.
  destruct st as [w r e log]. unfold exec_item. cbn [negb]. rewrite andb_false_r. reflexivity.
Qed.

(** Directories are never backed up: on a list of directory items the
    [--backup] flag changes neither the filesystem nor the [renamed] and
    [errors] counters. *)
Theorem exec_items_dirs_ignore_backup {S : Sys} (dry backup : bool) (ops : list rename_op)
  (st : exec_state S) :
  Forall (fun op : rename_op => snd op = true) ops ->
  x_world (exec_items dry backup st ops) = x_world (exec_items dry false st ops) /\
  x_renamed (exec_items dry backup st ops) = x_renamed (exec_items dry false st ops) /\
  x_errors (exec_items dry backup st ops) = x_errors (exec_items dry false st ops).
Proof. intros HF. rewrite (exec_items_dirs_same dry backup ops st HF). auto. Qed.

Lemma exec_items_progress {S : Sys} (dry backup : bool) (ops : list rename_op) :
  forall st : exec_state S,
  (x_renamed (exec_items dry backup st ops) + x_errors (exec_items dry backup st ops)
   = x_renamed st + x_errors st + Z.of_nat (List.length ops))%Z.
Proof.
  induction ops as [|op ops IH]; intros st; simpl; [lia|].
  rewrite IH, ExecFacts.exec_item_progress. lia.
Qed.

(** Without approve-each every planned item is attempted: nothing is
    skipped and [renamed + errors] is the number found. *)
Theorem run_changes_all_attempted {S : Sys} (w : world) (dry backup : bool)
  (changes : list rename_op) (inputs : list string) (s : summary) (st : exec_state S) :
  run_changes w dry backup false changes inputs = Some (Completed s st) ->
  skipped s = 0%Z /\ (renamed s + errors s = total_found s)%Z.
Proof.
  unfold run_changes.
  destruct (Z.of_nat (List.length changes) =? 0)%Z; [discriminate|].
  intros H. injection H as <- <-. simpl. split; [reflexivity|].
  rewrite exec_items_progress. simpl. lia.
Qed.

Lemma ask_prompts (inputs : list string) (d : decision) (n : nat) (r : list string) :
  ask inputs = Some (d, n, r) -> 1 <= n.
Proof.
  revert n; induction inputs as [|line rest IH]; intros n; simpl; [discriminate|].
  destruct (classify line); [intros H; injection H as _ <- _; lia|].
  destruct (ask rest) as [[[d' n'] r']|] eqn:E; [|discriminate].
  intros H. injection H as _ <- _. lia.
Qed.

(** Approve-each applies planned items only, in plan order, and prompts
    at least once for every planned item. *)
Theorem approve_loop_subseq (changes : list rename_op) (inputs : list string)
  (to_apply : list rename_op) (n : nat) (r : list string) :
  approve_loop changes inputs = Some (to_apply, n, r) ->
  subseq to_apply changes /\ List.length changes <= n.
Proof.
  revert inputs to_apply n r; induction changes as [|op rest IH]; intros inputs to_apply n r; simpl.
  - intros H; injection H as <- <- _. split; [constructor|lia].
  - destruct (ask inputs) as [[[d k] inputs']|] eqn:A; [|discriminate].
    destruct (approve_loop rest inputs') as [[[l m] r']|] eqn:L; [|discriminate].
    destruct (IH _ _ _ _ L) as [Sub Len]. pose proof (ask_prompts _ _ _ _ A) as Hk.
    destruct d; intros H; injection H as <- <- _; split; try lia;
      constructor; exact Sub.
Qed.


(** *** Finder and planner scope *)

Lemma iter_targets_no_dir (walk : walk_t) (p : string) :
  ~ In (p, true) (iter_targets walk false).
Proof.
  unfold iter_targets. intros H. apply in_flat_map in H as [[[dp dn] fn] [_ H]].
  simpl in H. apply in_map_iff in H as [f [Hf _]]. discriminate.
Qed.

Lemma subseq_incl {A : Type} (xs ys : list A) : subseq xs ys -> incl xs ys.
Proof.
  induction 1 as [|x xs ys _ IH|x xs ys _ IH]; intros a Ha; [exact Ha| |right; apply IH, Ha].
  destruct Ha as [->|Ha]; [left; reflexivity|right; apply IH, Ha].
Qed.

Section WithEngine.
Context {E : ReEngine}.

Lemma find_loop_sound (cfg : config) (targets : list (string * bool)) :
  subseq (find_loop cfg targets) targets /\
  forall p d, In (p, d) (find_loop cfg targets) -> eligible p d (exts cfg) = true.
Proof.
  induction targets as [|[path is_dir] rest [IHs IHe]]; simpl.
  - split; [constructor|intros _ _ []].
  - destruct (eligible path is_dir (exts cfg)) eqn:El; simpl.
    + match goal with |- context [if ?b then _ else _] => destruct b end.
      * split; [constructor; exact IHs|].
        intros p d [Hh|Hin]; [injection Hh as <- <-; exact El|exact (IHe p d Hin)].
      * split; [constructor; exact IHs|exact IHe].
    + split; [constructor; exact IHs|exact IHe].
Qed.

Lemma plan_loop_tail (fs : list string) (cfg : config) (x : string * bool)
  (rest : list (string * bool)) (ops : list rename_op) :
  plan_loop fs cfg (x :: rest) = Ok ops ->
  exists ops', plan_loop fs cfg rest = Ok ops' /\ incl ops' ops.
Proof.
  destruct x as [path is_dir]. cbn [plan_loop].
  destruct (negb (eligible path is_dir (exts cfg))); [intros H; exists ops; split; [exact H|apply incl_refl]|].
  destruct (split path) as [dirn name].
  destruct (new_name_for cfg name) as [[nn|]|e]; try discriminate;
    [|intros H; exists ops; split; [exact H|apply incl_refl]].
  destruct (String.eqb nn name); [intros H; exists ops; split; [exact H|apply incl_refl]|].
  destruct (plan_loop fs cfg rest) as [ops'|e]; [|discriminate].
  intros H. injection H as <-. exists ops'. split; [reflexivity|]. intros o Ho. right; exact Ho.
Qed.

Lemma plan_loop_complete (fs : list string) (cfg : config) (targets : list (string * bool))
  (ops : list rename_op) (src : string) (d : bool) (nn : string) :
  plan_loop fs cfg targets = Ok ops -> In (src, d) targets ->
  eligible src d (exts cfg) = true ->
  new_name_for cfg (snd (split src)) = Ok (Some nn) -> String.eqb nn (snd (split src)) = false ->
  In (src, next_nonconflicting_path fs (join (fst (split src)) nn), d) ops.
Proof.
  revert ops; induction targets as [|x rest IH]; intros ops H Hin El Hn Neq; [destruct Hin|].
  destruct Hin as [Hx|Hin].
  - subst x. cbn [plan_loop] in H. rewrite El in H. cbn [negb] in H.
    destruct (split src) as [dirn name]. simpl in Hn, Neq. rewrite Hn, Neq in H.
    destruct (plan_loop fs cfg rest) as [ops'|e]; [|discriminate].
    injection H as <-. left; reflexivity.
  - destruct (plan_loop_tail fs cfg x rest ops H) as [ops' [H' Inc]].
    apply Inc, (IH ops' H' Hin El Hn Neq).
Qed.

End WithEngine.

(** [find_matches] reports eligible targets of the walk only, in walk
    order, each at most as often as the walk lists it. *)
Theorem find_matches_scope {E : ReEngine} (walk : walk_t) (cfg : config) :
  subseq (find_matches walk cfg) (iter_targets walk (include_dirs cfg)) /\
  forall p d, In (p, d) (find_matches walk cfg) -> eligible p d (exts cfg) = true.
Proof. apply find_loop_sound. Qed.

(** Without [--include-dirs] neither the search nor the plan contains a
    directory. *)
Theorem no_directories_without_include_dirs {E : ReEngine} (fs : list string) (walk : walk_t)
  (cfg : config) :
  include_dirs cfg = false ->
  (forall p d, In (p, d) (find_matches walk cfg) -> d = false) /\
  (forall ops, plan_changes fs walk cfg = Ok ops -> forall src dst d, In (src, dst, d) ops -> d = false).
Proof.
  intros Hi. split.
  - intros p [|] H; [|reflexivity]. exfalso.
    destruct (find_loop_sound cfg (iter_targets walk (include_dirs cfg))) as [Sub _].
    unfold find_matches in H. rewrite Hi in H, Sub.
    exact (iter_targets_no_dir walk p (subseq_incl _ _ Sub _ H)).
  - intros ops Hp src dst [|] Hin; [|reflexivity]. exfalso.
    destruct (plan_loop_in fs cfg _ ops src dst true Hp Hin) as [nn [Ht _]].
    rewrite Hi in Ht. exact (iter_targets_no_dir walk src Ht).
Qed.

(** With an extension filter, every file found or planned has its
    lower-cased extension in the filter. *)
Theorem extension_filter_respected {E : ReEngine} (fs : list string) (walk : walk_t)
  (cfg : config) :
  exts cfg <> [] ->
  (forall p, In (p, false) (find_matches walk cfg) -> In (lower (snd (splitext p))) (exts cfg)) /\
  (forall ops, plan_changes fs walk cfg = Ok ops ->
     forall src dst, In (src, dst, false) ops -> In (lower (snd (splitext src))) (exts cfg)).
Proof.
  intros Hx.
  assert (K : forall p, eligible p false (exts cfg) = true -> In (lower (snd (splitext p))) (exts cfg)).
  { intros p El. unfold eligible in El. destruct (exts cfg) as [|x xs]; [congruence|].
    apply existsb_exists in El as [y [Hy Ey]]. apply String.eqb_eq in Ey. subst y. exact Hy. }
  split.
  - intros p H. apply K. exact (proj2 (find_loop_sound cfg _) p false H).
  - intros ops Hp src dst Hin. apply K.
    destruct (plan_loop_in fs cfg _ ops src dst false Hp Hin) as [nn [_ [El _]]]. exact El.
Qed.

Lemma plan_changes_complete_lemma {E : ReEngine} (fs : list string) (walk : walk_t) (cfg : config)
  (ops : list rename_op) (src : string) (d : bool) (nn : string) :
  plan_changes fs walk cfg = Ok ops ->
  In (src, d) (iter_targets walk (include_dirs cfg)) -> eligible src d (exts cfg) = true ->
  new_name_for cfg (basename src) = Ok (Some nn) -> nn <> basename src ->
  In (src, next_nonconflicting_path fs (join (dirname src) nn), d) ops.
Proof.
  intros Hp Hin El Hn Neq. rewrite basename_split in Hn, Neq.
  apply (plan_loop_complete fs cfg _ ops src d nn Hp Hin El Hn).
  apply String.eqb_neq, Neq.
Qed.

(** [plan_changes] is complete: every eligible target whose new base name
    differs from its base name is planned, with the collision-resolved
    destination in its directory. *)
Theorem plan_changes_complete {E : ReEngine} (fs : list string) (walk : walk_t) (cfg : config)
  (ops : list rename_op) (src : string) (d : bool) (nn : string) :
  plan_changes fs walk cfg = Ok ops ->
  In (src, d) (iter_targets walk (include_dirs cfg)) -> eligible src d (exts cfg) = true ->
  new_name_for cfg (basename src) = Ok (Some nn) -> nn <> basename src ->
  In (src, next_nonconflicting_path fs (join (dirname src) nn), d) ops.
Proof. exact (plan_changes_complete_lemma fs walk cfg ops src d nn). Qed.

(** Collisions are resolved against existing paths only, not against the
    other planned destinations: two entries of one directory given the
    same new name get the same destination. *)
Theorem plan_changes_shared_destination {E : ReEngine} (fs : list string) (walk : walk_t)
  (cfg : config) (ops : list rename_op) (src1 src2 : string) (d1 d2 : bool) (nn : string) :
  plan_changes fs walk cfg = Ok ops ->
  In (src1, d1) (iter_targets walk (include_dirs cfg)) ->
  In (src2, d2) (iter_targets walk (include_dirs cfg)) ->
  eligible src1 d1 (exts cfg) = true -> eligible src2 d2 (exts cfg) = true ->
  dirname src1 = dirname src2 ->
  new_name_for cfg (basename src1) = Ok (Some nn) -> new_name_for cfg (basename src2) = Ok (Some nn) ->
  nn <> basename src1 -> nn <> basename src2 ->
  exists dst, In (src1, dst, d1) ops /\ In (src2, dst, d2) ops.
Proof.
  intros Hp H1 H2 E1 E2 Hd N1 N2 Q1 Q2.
  exists (next_nonconflicting_path fs (join (dirname src1) nn)). split.
  - apply (plan_changes_complete_lemma fs walk cfg ops src1 d1 nn Hp H1 E1 N1 Q1).
  - rewrite Hd. apply (plan_changes_complete_lemma fs walk cfg ops src2 d2 nn Hp H2 E2 N2 Q2).
Qed.


(** *** Case folding, quotes and extension lists *)

Lemma lower_char_idem (c : ascii) : lower_char (lower_char c) = lower_char c.
Proof. destruct c as [[] [] [] [] [] [] [] []]; reflexivity. Qed.

Lemma is_space_lower_char (c : ascii) : Prompt.is_space (lower_char c) = Prompt.is_space c.
Proof. destruct c as [[] [] [] [] [] [] [] []]; reflexivity. Qed.

Lemma eqc_lower_char_comma (c : ascii) : eqc (lower_char c) ","%char = eqc c ","%char.
Proof. destruct c as [[] [] [] [] [] [] [] []]; reflexivity. Qed.

Lemma eqc_lower_char_dot (c : ascii) : eqc (lower_char c) "."%char = eqc c "."%char.
Proof. destruct c as [[] [] [] [] [] [] [] []]; reflexivity. Qed.

Lemma lower_idem (s : string) : lower (lower s) = lower s.
Proof. induction s as [|a s IH]; simpl; [reflexivity|]. rewrite lower_char_idem, IH. reflexivity. Qed.

Lemma lstrip_app_blank (w t : string) :
  Prompt.lstrip w = EmptyString -> Prompt.lstrip (w ++ t) = Prompt.lstrip t.
Proof.
  induction w as [|c w IH]; simpl; [reflexivity|].
  destruct (Prompt.is_space c); [exact IH|discriminate].
Qed.

Lemma rstrip_ws_blank (w : string) :
  Prompt.lstrip w = EmptyString -> Prompt.rstrip_ws w = EmptyString.
Proof.
  induction w as [|c w IH]; simpl; [reflexivity|].
  destruct (Prompt.is_space c) eqn:Sc; [|discriminate].
  intros H. rewrite IH by exact H. reflexivity.
Qed.

Lemma rstrip_ws_app_blank (a w : string) :
  Prompt.rstrip_ws w = EmptyString -> Prompt.rstrip_ws (a ++ w) = Prompt.rstrip_ws a.
Proof.
  intros Hw. induction a as [|c a IH]; simpl; [exact Hw|]. rewrite IH. reflexivity.
Qed.

Lemma rstrip_ws_cons_nonspace (a : ascii) (t : string) :
  Prompt.is_space a = false -> Prompt.rstrip_ws (String a t) = String a (Prompt.rstrip_ws t).
Proof. intros Ha. simpl. destruct (Prompt.rstrip_ws t); [rewrite Ha|]; reflexivity. Qed.

Lemma rstrip_ws_snoc_nonspace (t : string) (c : ascii) :
  Prompt.is_space c = false -> Prompt.rstrip_ws (t ++ String c EmptyString) = t ++ String c EmptyString.
Proof.
  intros Hc. induction t as [|b t IH]; simpl.
  - rewrite Hc. reflexivity.
  - simpl in IH. rewrite IH. destruct t; reflexivity.
Qed.

Lemma rstrip_ws_idem (s : string) : Prompt.rstrip_ws (Prompt.rstrip_ws s) = Prompt.rstrip_ws s.
Proof.
  induction s as [|a s IH]; simpl; [reflexivity|].
  destruct (Prompt.rstrip_ws s) as [|b r] eqn:R.
  - destruct (Prompt.is_space a) eqn:Sa; simpl; [reflexivity|rewrite Sa; reflexivity].
  - try rewrite R in IH.
    change (Prompt.rstrip_ws (String a (String b r))) with
      (match Prompt.rstrip_ws (String b r) with
       | EmptyString => if Prompt.is_space a then EmptyString else String a EmptyString
       | _ => String a (Prompt.rstrip_ws (String b r))
       end).
    rewrite IH. reflexivity.
Qed.

Lemma lstrip_lower (s : string) : Prompt.lstrip (lower s) = lower (Prompt.lstrip s).
Proof.
  induction s as [|a s IH]; simpl; [reflexivity|].
  rewrite is_space_lower_char. destruct (Prompt.is_space a); [exact IH|reflexivity].
Qed.

Lemma rstrip_ws_lower (s : string) : Prompt.rstrip_ws (lower s) = lower (Prompt.rstrip_ws s).
Proof.
  induction s as [|a s IH]; simpl; [reflexivity|]. rewrite IH.
  destruct (Prompt.rstrip_ws s); simpl; [rewrite is_space_lower_char; destruct (Prompt.is_space a)|];
    reflexivity.
Qed.

Lemma has_char_lstrip (c : ascii) (s : string) :
  has_char c s = false -> has_char c (Prompt.lstrip s) = false.
Proof.
  induction s as [|a s IH]; simpl; [auto|].
  intros H. apply orb_false_iff in H as [H1 H2].
  destruct (Prompt.is_space a); [auto|simpl; rewrite H1, H2; reflexivity].
Qed.

Lemma has_char_rstrip_ws (c : ascii) (s : string) :
  has_char c s = false -> has_char c (Prompt.rstrip_ws s) = false.
Proof.
  induction s as [|a s IH]; simpl; [auto|].
  intros H. apply orb_false_iff in H as [H1 H2]. specialize (IH H2).
  destruct (Prompt.rstrip_ws s); [destruct (Prompt.is_space a)|]; simpl; try rewrite H1; auto.
Qed.

Lemma has_char_lower_comma (s : string) : has_char ","%char (lower s) = has_char ","%char s.
Proof. induction s as [|a s IH]; simpl; [reflexivity|]. rewrite eqc_lower_char_comma, IH. reflexivity. Qed.

Lemma split_on_nochar (c : ascii) (s : string) :
  forall x, In x (split_on c s) -> has_char c x = false.
Proof.
  induction s as [|a s IH]; simpl; intros x Hx.
  - destruct Hx as [<-|[]]; reflexivity.
  - destruct (eqc a c) eqn:Ea.
    + destruct Hx as [<-|Hx]; [reflexivity|auto].
    + destruct (split_on c s) as [|y ys] eqn:Sp.
      * destruct Hx as [<-|[]]. simpl. rewrite Ea. reflexivity.
      * destruct Hx as [<-|Hx]; [|apply IH; right; exact Hx].
        simpl. rewrite Ea, (IH y (or_introl eq_refl)). reflexivity.
Qed.

Lemma split_on_single (c : ascii) (x : string) :
  has_char c x = false -> split_on c x = [x].
Proof.
  induction x as [|a x IH]; simpl; [reflexivity|].
  intros H. apply orb_false_iff in H as [H1 H2]. rewrite H1, IH by exact H2. reflexivity.
Qed.

Lemma split_on_app (c : ascii) (x r : string) :
  has_char c x = false -> split_on c (x ++ String c r) = x :: split_on c r.
Proof.
  induction x as [|a x IH]; simpl.
  - rewrite eqc_refl. reflexivity.
  - intros H. apply orb_false_iff in H as [H1 H2]. rewrite H1, IH by exact H2. reflexivity.
Qed.

Lemma split_on_join_comma (xs : list string) :
  xs <> [] -> (forall x, In x xs -> has_char ","%char x = false) ->
  split_on ","%char (join_comma xs) = xs.
Proof.
  induction xs as [|x xs IH]; intros Hne H; [congruence|].
  destruct xs as [|y ys].
  - simpl. apply split_on_single, H. left; reflexivity.
  - change (join_comma (x :: y :: ys)) with (x ++ String ","%char (join_comma (y :: ys))).
    rewrite split_on_app by (apply H; left; reflexivity).
    rewrite IH; [reflexivity|discriminate|]. intros z Hz. apply H. right; exact Hz.
Qed.

(** The shape of a normalised extension. *)
Definition ext_normal (e : string) : Prop :=
  startswith_char "."%char e = true /\ lower e = e /\ has_char ","%char e = false /\
  Prompt.strip e = e.

Lemma normalize_exts_normal (ext_str : string) :
  forall e, In e (normalize_exts ext_str) -> ext_normal e.
Proof.
  unfold normalize_exts. destruct (String.eqb ext_str "") ; [intros e []|].
  intros e He. apply in_map_iff in He as [t [<- Ht]].
  apply in_map_iff in Ht as [e0 [<- He0]]. apply filter_In in He0 as [In0 Ne0].
  pose proof (split_on_nochar _ _ _ In0) as Nc0.
  set (t := Prompt.strip e0) in *.
  assert (Tc : has_char ","%char t = false) by (apply has_char_rstrip_ws, has_char_lstrip, Nc0).
  assert (Tne : t <> EmptyString) by (intros Ht; rewrite Ht in Ne0; discriminate).
  assert (Tr : Prompt.rstrip_ws t = t) by apply rstrip_ws_idem.
  set (y := if startswith_char "."%char t then t else String "."%char t).
  assert (Ys : startswith_char "."%char y = true).
  { subst y. destruct (startswith_char "."%char t) eqn:St; [exact St|reflexivity]. }
  assert (Yc : has_char ","%char y = false).
  { subst y. destruct (startswith_char "."%char t); [exact Tc|simpl; exact Tc]. }
  assert (Yst : Prompt.strip y = y).
  { destruct y as [|a y'] eqn:Ey; [discriminate|].
    simpl in Ys. apply eqc_true in Ys. subst a. unfold Prompt.strip. cbn [Prompt.lstrip].
    change (Prompt.is_space "."%char) with false. cbv iota.
    rewrite rstrip_ws_cons_nonspace by reflexivity. f_equal.
    subst y. destruct (startswith_char "."%char t) eqn:St.
    - destruct t as [|b t']; [discriminate|]. simpl in St. apply eqc_true in St. subst b.
      injection Ey as <-. rewrite rstrip_ws_cons_nonspace in Tr by reflexivity.
      injection Tr as Tr. exact Tr.
    - injection Ey as <-. exact Tr. }
  repeat split.
  - destruct y as [|a y']; [discriminate|]. simpl in *. rewrite eqc_lower_char_dot. exact Ys.
  - apply lower_idem.
  - rewrite has_char_lower_comma. exact Yc.
  - unfold Prompt.strip in *. rewrite lstrip_lower, rstrip_ws_lower, Yst. reflexivity.
Qed.

Lemma filter_all {A : Type} (p : A -> bool) (l : list A) :
  (forall x, In x l -> p x = true) -> filter p l = l.
Proof.
  induction l as [|x l IH]; intros H; simpl; [reflexivity|].
  rewrite H by (left; reflexivity). rewrite IH; [reflexivity|]. intros y Hy. apply H. right; exact Hy.
Qed.

(** [strip_quotes] removes surrounding whitespace and one pair of matching
    outer quotes, leaving the text between them untouched (inner quotes
    and whitespace included). *)
Theorem strip_quotes_quoted (q : ascii) (ws1 ws2 x : string) :
  q = dquote \/ q = "'"%char ->
  Prompt.lstrip ws1 = EmptyString -> Prompt.lstrip ws2 = EmptyString ->
  strip_quotes (Some (ws1 ++ String q (x ++ String q ws2))) = Some x.
Proof.
  intros Hq W1 W2. unfold strip_quotes, strip_quotes_str, Prompt.strip. f_equal.
  assert (Sq : Prompt.is_space q = false) by (destruct Hq as [->| ->]; reflexivity).
  rewrite lstrip_app_blank by exact W1. cbn [Prompt.lstrip]. rewrite Sq.
  replace (String q (x ++ String q ws2)) with ((String q x ++ String q EmptyString) ++ ws2)
    by (simpl; rewrite app_assoc_str; reflexivity).
  rewrite rstrip_ws_app_blank by (apply rstrip_ws_blank, W2).
  rewrite rstrip_ws_snoc_nonspace by exact Sq.
  rewrite length_app. cbn [String.length].
  assert (E : endswith_char q (String q x ++ String q EmptyString) = true).
  { unfold endswith_char. rewrite last_char_snoc. apply eqc_refl. }
  replace (Nat.leb 2 (S (String.length x) + 1)) with true by (symmetry; apply Nat.leb_le; lia).
  replace (S (String.length x) + 1 - 2) with (String.length x) by lia.
  assert (Sw : startswith_char q (String q x ++ String q EmptyString) = true)
    by (simpl; apply eqc_refl).
  assert (T : take (String.length x) (drop 1 (String q x ++ String q EmptyString)) = x)
    by apply take_app.
  destruct Hq as [-> | ->]; rewrite Sw, E.
  - exact T.
  - replace (startswith_char dquote (String "'"%char x ++ String "'"%char EmptyString)) with false
      by reflexivity.
    exact T.
Qed.

(** Normalised extensions each start with a dot, are lower-case, contain
    no comma and no surrounding whitespace. *)
Theorem normalize_exts_shape (ext_str : string) (e : string) :
  In e (normalize_exts ext_str) ->
  startswith_char "."%char e = true /\ lower e = e /\ has_char ","%char e = false /\
  Prompt.strip e = e.
Proof. apply normalize_exts_normal. Qed.

(** Normalising is idempotent: feeding the normalised list back as a
    comma-separated [--ext] value gives the same list. *)
Theorem normalize_exts_idempotent (ext_str : string) :
  normalize_exts (join_comma (normalize_exts ext_str)) = normalize_exts ext_str.
Proof.
  pose proof (normalize_exts_normal ext_str) as N.
  set (L := normalize_exts ext_str) in *. clearbody L.
  destruct L as [|e L'] eqn:EL; [reflexivity|]. rewrite <- EL in N.
  assert (Ne : forall x, In x L -> x <> EmptyString).
  { intros x Hx Ex. subst. destruct (N EmptyString Hx) as [H _]. discriminate. }
  rewrite <- EL. unfold normalize_exts.
  assert (Jne : String.eqb (join_comma L) "" = false).
  { subst L. destruct e as [|a e']; [exfalso; exact (Ne _ (or_introl eq_refl) eq_refl)|].
    destruct L'; reflexivity. }
  rewrite Jne, split_on_join_comma; [| subst L; discriminate|].
  2: { intros x Hx. apply (N x Hx). }
  rewrite filter_all.
  2: { intros x Hx. destruct (N x Hx) as (_ & _ & _ & St). rewrite St.
       destruct (String.eqb x "") eqn:Ex; [apply String.eqb_eq in Ex; exfalso; exact (Ne x Hx Ex)|reflexivity]. }
  rewrite map_map. rewrite <- (map_id L) at 2. apply map_ext_in. intros x Hx.
  destruct (N x Hx) as (Sd & Lw & _ & St). rewrite St, Sd. exact Lw.
Qed.

(** With [--ext], a file without an extension (as [os.path.splitext] sees
    it, e.g. [README] or [.bashrc]) is never eligible. *)
Theorem no_extension_not_eligible (ext_str path : string) :
  normalize_exts ext_str <> [] -> snd (splitext path) = EmptyString ->
  eligible path false (normalize_exts ext_str) = false.
Proof.
  intros Hne Hx. unfold eligible. pose proof (normalize_exts_normal ext_str) as N.
  destruct (normalize_exts ext_str) as [|e L] eqn:EL; [congruence|].
  rewrite <- EL. rewrite Hx. simpl lower.
  destruct (existsb (String.eqb EmptyString) (normalize_exts ext_str)) eqn:Ex; [|reflexivity].
  apply existsb_exists in Ex as [y [Hy Ey]]. apply String.eqb_eq in Ey. subst y.
  rewrite EL in Hy. destruct (N EmptyString Hy) as [H _]. discriminate.
Qed.


(** *** Dated log files *)

Lemma rfind_nochar (c : ascii) (s : string) : has_char c s = false -> rfind c s = None.
Proof.
  induction s as [|x s IH]; simpl; [reflexivity|].
  intros H. apply orb_false_iff in H as [H1 H2]. rewrite IH, H1 by exact H2. reflexivity.
Qed.

Lemma rfind_at_last (c : ascii) (a b : string) :
  has_char c b = false -> rfind c (a ++ String c b) = Some (String.length a).
Proof.
  intros Hb. induction a as [|x a IH]; simpl.
  - rewrite rfind_nochar, eqc_refl by exact Hb. reflexivity.
  - rewrite IH. reflexivity.
Qed.

Lemma splitext_log_name (date t : string) :
  has_char sep date = false -> has_char "."%char t = false -> has_char sep t = false ->
  splitext ("renamed." ++ date ++ String "."%char t) = ("renamed." ++ date, String "."%char t).
Proof.
  intros Hd Ht Hs. set (x := "renamed." ++ date).
  replace ("renamed." ++ date ++ String "."%char t) with (x ++ String "."%char t)
    by (subst x; rewrite app_assoc_str; reflexivity).
  unfold splitext. rewrite rfind_at_last by exact Ht.
  rewrite rfind_nochar.
  2: { rewrite has_char_app. subst x. rewrite has_char_app, Hd. simpl. exact Hs. }
  replace (Nat.ltb (String.length x) 0) with false by reflexivity.
  rewrite Nat.sub_0_r. cbn [drop]. rewrite take_app, drop_app.
  replace (all_char "."%char x) with false by (subst x; reflexivity). reflexivity.
Qed.

Lemma log_candidate_eq (base date t : string) (i : nat) :
  has_char sep date = false -> has_char "."%char t = false -> has_char sep t = false ->
  log_candidate base ("renamed." ++ date ++ String "."%char t) i =
  join base ("renamed." ++ date ++ "(" ++ str_of_nat i ++ ")" ++ String "."%char t).
Proof.
  intros Hd Ht Hs. unfold log_candidate. rewrite splitext_log_name by assumption.
  rewrite app_assoc_str. reflexivity.
Qed.

Lemma log_name_nosep (date t : string) (i : nat) :
  has_char sep date = false -> has_char sep t = false ->
  has_char sep ("renamed." ++ date ++ "(" ++ str_of_nat i ++ ")" ++ String "."%char t) = false.
Proof.
  intros Hd Hs. rewrite !has_char_app, Hd, str_of_nat_nosep. cbn [has_char]. rewrite Hs. reflexivity.
Qed.

Lemma log_candidate_inj (base date t : string) :
  has_char sep date = false -> has_char "."%char t = false -> has_char sep t = false ->
  forall i j, log_candidate base ("renamed." ++ date ++ String "."%char t) i =
              log_candidate base ("renamed." ++ date ++ String "."%char t) j -> i = j.
Proof.
  intros Hd Ht Hs i j. rewrite !log_candidate_eq by assumption.
  rewrite !join_nosep by (apply log_name_nosep; assumption).
  intros H. apply app_inv_l in H. change ("renamed." ++ date ++ "(" ++ str_of_nat i ++ ")" ++ String "."%char t)
    with ("renamed." ++ (date ++ "(" ++ str_of_nat i ++ ")" ++ String "."%char t)) in H.
  apply app_inv_l, app_inv_l in H. simpl in H. injection H as H.
  apply str_of_nat_inj.
  exact (app_cut_char ")"%char _ _ _ _ (str_of_nat_noparen i) (str_of_nat_noparen j) H).
Qed.

(** [ensure_log_file] and [ensure_json_log_file] ([t] is "txt" or "jsonl")
    never reuse an existing file: the file they try to open is
    [renamed.<date>.<t>] when free, and otherwise [renamed.<date>(i).<t>]
    for the smallest free [i >= 1]; they return it when opening succeeds
    and [None] when it fails. *)
Theorem ensure_dated_log_file_fresh (fs : list string) (can_open : string -> bool)
  (base_dir date t : string) :
  has_char sep date = false -> has_char "."%char t = false -> has_char sep t = false ->
  exists p,
    ensure_dated_log_file fs can_open base_dir date (String "."%char t)
      = (if can_open p then Some p else None) /\
    path_exists fs p = false /\
    (p = join base_dir ("renamed." ++ date ++ String "."%char t) \/
     (path_exists fs (join base_dir ("renamed." ++ date ++ String "."%char t)) = true /\
      exists i, 1 <= i /\
        p = join base_dir ("renamed." ++ date ++ "(" ++ str_of_nat i ++ ")" ++ String "."%char t) /\
        forall k, 1 <= k < i ->
          path_exists fs (join base_dir ("renamed." ++ date ++ "(" ++ str_of_nat k ++ ")" ++
                                         String "."%char t)) = true)).
Proof.
  intros Hd Ht Hs. unfold ensure_dated_log_file.
  destruct (path_exists fs (join base_dir ("renamed." ++ date ++ String "."%char t))) eqn:Ex;
    cbn [negb].
  - set (cand := log_candidate base_dir ("renamed." ++ date ++ String "."%char t)).
    destruct (probe_first_free fs cand _ 1
                (free_candidate fs cand (log_candidate_inj base_dir date t Hd Ht Hs)))
      as [i [Hi [Hp [F M]]]].
    exists (cand i). rewrite Hp. split; [reflexivity|]. split; [exact F|].
    right. split; [reflexivity|]. exists i. split; [exact Hi|].
    subst cand. rewrite log_candidate_eq by assumption. split; [reflexivity|].
    intros k Hk. rewrite <- log_candidate_eq by assumption. apply M, Hk.
  - eexists. split; [reflexivity|]. split; [exact Ex|]. left; reflexivity.
Qed.

(** *** Interactive input *)

Lemma confirm_plan_shorter (inputs rest : list string) (ans : string) :
  confirm_plan inputs = Some (ans, rest) -> List.length rest < List.length inputs.
Proof.
  induction inputs as [|line inputs IH]; simpl; [discriminate|].
  destruct (is_plan_answer (lower (Prompt.strip line))).
  - intros H. injection H as _ <-. lia.
  - intros H. specialize (IH H). lia.
Qed.

Lemma gather_go_fuel (f g : nat) (prev : prev_dict) (inputs : list string) :
  List.length inputs < f -> List.length inputs < g ->
  gather_go f prev inputs = gather_go g prev inputs.
Proof.
  revert g prev inputs; induction f as [|f IH]; intros [|g] prev inputs Hf Hg; try lia.
  cbn [gather_go]. destruct inputs as [|l1 [|l2 [|l3 rest]]]; try reflexivity.
  destruct (confirm_plan rest) as [[ans rest']|] eqn:C; [|reflexivity].
  pose proof (confirm_plan_shorter _ _ _ C) as L. simpl in Hf, Hg.
  destruct (existsb _ ["y"; "yes"; "a"]); [reflexivity|].
  destruct (existsb _ ["n"; "no"]); [reflexivity|].
  apply IH; lia.
Qed.

Definition agree3 (p q : prev_dict) : Prop :=
  dict_find p "location" = dict_find q "location" /\ dict_find p "find" = dict_find q "find" /\
  dict_find p "replace" = dict_find q "replace".

Lemma dict_find_app (p q : prev_dict) (k : string) :
  dict_find (p ++ q)%list k = match dict_find p k with Some v => Some v | None => dict_find q k end.
Proof.
  unfold dict_find. induction p as [|[k' v'] p IH]; simpl; [reflexivity|].
  destruct (String.eqb k' k); [reflexivity|exact IH].
Qed.

Lemma agree3_merge (l f r : string) (p q : prev_dict) :
  agree3 p q -> agree3 (merge_prev l f r p) (merge_prev l f r q).
Proof.
  unfold agree3, merge_prev. rewrite !(dict_find_app p), !(dict_find_app q).
  intros (A & B & C). rewrite A, B, C. auto.
Qed.

Lemma gather_go_agree (f : nat) (p q : prev_dict) (inputs : list string) :
  agree3 p q -> gather_go f p inputs = gather_go f q inputs.
Proof.
  revert p q inputs; induction f as [|f IH]; intros p q inputs Ag; [reflexivity|].
  cbn [gather_go]. destruct inputs as [|l1 [|l2 [|l3 rest]]]; try reflexivity.
  pose proof Ag as (A & B & C). unfold prev_get. rewrite A, B, C.
  destruct (confirm_plan rest) as [[ans rest']|]; [|reflexivity].
  destruct (existsb _ ["y"; "yes"; "a"]); [reflexivity|].
  destruct (existsb _ ["n"; "no"]); [reflexivity|].
  apply IH, agree3_merge. exact Ag.
Qed.

Lemma merge_prev_present (l f r : string) (p : prev_dict) :
  dict_find p "location" <> None -> dict_find p "find" <> None -> dict_find p "replace" <> None ->
  agree3 (merge_prev l f r p) p.
Proof.
  unfold agree3, merge_prev. rewrite !(dict_find_app p).
  intros A B C. destruct (dict_find p "location"); [|congruence].
  destruct (dict_find p "find"); [|congruence]. destruct (dict_find p "replace"); [|congruence].
  auto.
Qed.

(** When the [prev] dict already has the keys "location", "find" and
    "replace" (as in [main]'s call for a missing location and its call
    after a [c] answer, not in the fully interactive call), a round
    answered "c" is forgotten: [**prev] overrides the values just typed,
    so the next round offers the same defaults as before. *)
Theorem gather_change_keeps_defaults (prev : prev_dict) (l1 l2 l3 c : string) (rest : list string) :
  dict_find prev "location" <> None -> dict_find prev "find" <> None ->
  dict_find prev "replace" <> None -> lower (Prompt.strip c) = "c" ->
  gather_inputs_interactive prev (l1 :: l2 :: l3 :: c :: rest) = gather_inputs_interactive prev rest.
Proof.
  intros A B C Hc. unfold gather_inputs_interactive.
  remember (gather_go (S (List.length rest)) prev rest) as R eqn:ER.
  cbn [gather_go confirm_plan]. rewrite Hc. cbn -[gather_go merge_prev].
  rewrite (gather_go_agree _ _ prev rest) by (apply merge_prev_present; assumption).
  subst R. apply gather_go_fuel; simpl; lia.
Qed.

(** Approve-each is on exactly when the first answer to "Proceed?" is
    "a" (and not in find-only mode): answering "c" and then "a" in the
    re-prompt runs without approve-each. *)
Theorem main_confirm_approve_each (find_only : bool) (l f r : string) (inputs : list string)
  (ae : bool) (l' f' r' : string) (rest : list string) :
  main_confirm find_only l f r inputs = CProceed ae l' f' r' rest ->
  (ae = true <-> find_only = false /\ exists rest0, confirm_plan inputs = Some ("a", rest0)).
Proof.
  unfold main_confirm. destruct find_only.
  - intros H. injection H as <- _ _ _ _. split; [discriminate|intros [H _]; discriminate].
  - destruct (confirm_plan inputs) as [[ans rest0]|]; [|discriminate].
    destruct (existsb (String.eqb ans) ["n"; "no"]); [discriminate|].
    destruct (String.eqb ans "c") eqn:Ec.
    + apply String.eqb_eq in Ec. subst ans.
      destruct (gather_inputs_interactive _ rest0); try discriminate.
      intros H. injection H as <- _ _ _ _. simpl.
      split; [discriminate|intros [_ [r0 Hr]]; discriminate].
    + intros H. injection H as <- _ _ _ _. split.
      * intros Ha. apply String.eqb_eq in Ha. subst ans. split; [reflexivity|eexists; reflexivity].
      * intros [_ [r0 Hr]]. injection Hr as -> _. reflexivity.
Qed.


(** *** Case-insensitive replacement *)

Lemma length_drop (n : nat) (s : string) : String.length (drop n s) = String.length s - n.
Proof. revert s; induction n as [|n IH]; intros [|a s]; simpl; auto. Qed.

Fixpoint lits (s : string) : list Re.titem :=
  match s with
  | EmptyString => []
  | String c r => Re.TLit c :: lits r
  end.

Lemma parse_template_go_plain (f : nat) (s : string) :
  String.length s < f -> has_char Re.bslash s = false -> Re.parse_template_go f s = Some (lits s).
Proof.
  revert s; induction f as [|f IH]; intros s Hl Hb; [lia|].
  destruct s as [|c r]; [reflexivity|]. simpl in Hl, Hb.
  apply orb_false_iff in Hb as [Hc Hr]. cbn [Re.parse_template_go].
  rewrite Hc. cbn [negb]. rewrite IH by (assumption || lia). reflexivity.
Qed.

Lemma expand_lits (s m : string) : Re.expand (lits s) m = s.
Proof. induction s as [|c s IH]; simpl; [reflexivity|]. rewrite IH. reflexivity. Qed.

Lemma scan_nonempty (ic : bool) (p : string) (ma : bool) (s : string) (j : nat) (b : bool) :
  String.length p <> 0 -> Re.scan ic p ma s j b = Re.scan ic p false s j false.
Proof.
  intros Hp. revert j b; induction s as [|c s IH]; intros j b; cbn [Re.scan];
    replace (String.length p =? 0)%nat with false by (symmetry; apply Nat.eqb_neq, Hp);
    rewrite !andb_false_r; [reflexivity|].
  destruct (Re.lit_at ic p (String c s)); cbn [andb negb]; [reflexivity|apply IH].
Qed.

Lemma scan_shift (ic : bool) (p : string) (s : string) (j : nat) :
  String.length p <> 0 ->
  Re.scan ic p false s (S j) false = option_map S (Re.scan ic p false s j false).
Proof.
  intros Hp. revert j; induction s as [|c s IH]; intros j; cbn [Re.scan];
    rewrite !andb_false_l; cbn [negb]; rewrite !andb_true_r.
  - destruct (Re.lit_at ic p ""); reflexivity.
  - destruct (Re.lit_at ic p (String c s)); [reflexivity|]. apply IH.
Qed.

Lemma sub_go_skip (f : nat) (p : string) (items : list Re.titem) (a : ascii) (r : string) (ma : bool) :
  String.length p <> 0 -> Re.lit_at true p (String a r) = false ->
  Re.sub_go (S f) true p items (String a r) ma = String a (Re.sub_go (S f) true p items r ma).
Proof.
  intros Hp Hl. cbn [Re.sub_go]. unfold Re.find_from.
  rewrite (scan_nonempty _ _ ma (String a r)), (scan_nonempty _ _ ma r) by exact Hp.
  cbn [Re.scan]. rewrite Hl, andb_false_l. rewrite scan_shift by exact Hp.
  destruct (Re.scan true p false r 0 false) as [j|]; cbn [option_map]; reflexivity.
Qed.

Lemma lit_at_empty (p : string) : String.length p <> 0 -> Re.lit_at true p "" = false.
Proof. destruct p; [contradiction|reflexivity]. Qed.

Lemma sub_go_spec (p repl : string) (n : nat) :
  String.length p <> 0 -> forall s F G, String.length s <= n -> String.length s < F ->
  String.length s <= G ->
  Re.sub_go F true p (lits repl) s false = ci_replace_spec_go G p repl s.
Proof.
  intros Hp. induction n as [|n IH]; intros s F G Hn HF HG.
  - destruct s; [|simpl in Hn; lia]. destruct F as [|F]; [lia|].
    cbn [Re.sub_go]. unfold Re.find_from. cbn [Re.scan]. rewrite lit_at_empty by exact Hp.
    destruct G; reflexivity.
  - destruct F as [|F]; [lia|]. destruct s as [|a r].
    + cbn [Re.sub_go]. unfold Re.find_from. cbn [Re.scan].
      rewrite lit_at_empty by exact Hp. destruct G; reflexivity.
    + destruct G as [|G]; [simpl in HG; lia|]. simpl in Hn, HF, HG.
      cbn [ci_replace_spec_go]. destruct (Re.lit_at true p (String a r)) eqn:L.
      * assert (L' : startswith (lower p) (lower (String a r)) = true) by exact L. rewrite L'.
        cbn [Re.sub_go]. unfold Re.find_from. cbn [Re.scan]. rewrite L. cbn [andb negb].
        replace (String.length p =? 0)%nat with false by (symmetry; apply Nat.eqb_neq, Hp).
        cbn [take String.append]. rewrite expand_lits. rewrite Nat.add_0_l. f_equal.
        assert (Ld : String.length (drop (String.length p) (String a r)) <= String.length r).
        { destruct p as [|x p']; [contradiction|]. cbn [String.length drop].
          rewrite length_drop. lia. }
        apply IH; lia.
      * assert (L' : startswith (lower p) (lower (String a r)) = false) by exact L. rewrite L'.
        rewrite sub_go_skip by assumption. f_equal.
        destruct r as [|b r'].
        { cbn [Re.sub_go].
          unfold Re.find_from. cbn [Re.scan]. rewrite lit_at_empty by exact Hp. destruct G; reflexivity. }
        apply IH; simpl; simpl in Hn, HF, HG; lia.
Qed.

(** For Latin-1 text (the strings of this development), when the
    replacement text has no backslash and the find term is not empty,
    the case-insensitive branch of [ci_replace] replaces every occurrence
    found on lower-cased operands, left to right and without overlap, by
    the replacement text taken literally. *)
Theorem ci_replace_plain_replacement (text find_term replace_with : string) :
  find_term <> "" -> has_char Re.bslash replace_with = false ->
  ci_replace text find_term replace_with false = Ok (ci_replace_spec text find_term replace_with).
Proof.
  intros Hf Hb. unfold ci_replace. destruct (String.eqb_spec find_term "") as [E|_]; [contradiction|].
  cbn [negb]. unfold Re.sub_literal, Re.parse_template.
  rewrite parse_template_go_plain by (assumption || lia). f_equal.
  unfold ci_replace_spec. apply (sub_go_spec _ _ (String.length text)); try lia.
  destruct find_term; [contradiction|discriminate].
Qed.


(** *** Witnesses *)

Lemma exec_items_dirs_ignore_backup_witness :
  x_world (exec_items (S := list_sys) false true (mk_exec (S := list_sys) ["/t"; "/t/Reports"] 0%Z 0%Z [])
    [("/t/Reports", "/t/Rpts", true)]) = ["/t/Rpts"; "/t"] /\
  x_world (exec_items (S := list_sys) false true (mk_exec (S := list_sys) ["/t"; "/t/Reports"] 0%Z 0%Z [])
    [("/t/Reports", "/t/Rpts", true)]) =
  x_world (exec_items (S := list_sys) false false (mk_exec (S := list_sys) ["/t"; "/t/Reports"] 0%Z 0%Z [])
    [("/t/Reports", "/t/Rpts", true)]) /\
  x_renamed (exec_items (S := list_sys) false true (mk_exec (S := list_sys) ["/t"; "/t/Reports"] 0%Z 0%Z [])
    [("/t/Reports", "/t/Rpts", true)]) =
  x_renamed (exec_items (S := list_sys) false false (mk_exec (S := list_sys) ["/t"; "/t/Reports"] 0%Z 0%Z [])
    [("/t/Reports", "/t/Rpts", true)]) /\
  x_errors (exec_items (S := list_sys) false true (mk_exec (S := list_sys) ["/t"; "/t/Reports"] 0%Z 0%Z [])
    [("/t/Reports", "/t/Rpts", true)]) =
  x_errors (exec_items (S := list_sys) false false (mk_exec (S := list_sys) ["/t"; "/t/Reports"] 0%Z 0%Z [])
    [("/t/Reports", "/t/Rpts", true)]).
Proof. split; [vm_compute; reflexivity|]. apply exec_items_dirs_ignore_backup. repeat constructor. Defined.

Lemma run_changes_all_attempted_witness :
  run_changes (S := list_sys) ["/t"; "/t/a.txt"] false true false
    [("/t/a.txt", "/t/b.txt", false); ("/t/x.txt", "/t/y.txt", false)] []
  = Some (Completed (mk_summary 2 1 0 1)
            (mk_exec (S := list_sys) ["/t/b.txt"; "/t/a.txt.bak"; "/t"] 1%Z 1%Z
               [EvBackup "/t/a.txt" "/t/a.txt.bak" true; EvRename "/t/a.txt" "/t/b.txt" None;
                EvBackup "/t/x.txt" "/t/x.txt.bak" false])) /\
  skipped (mk_summary 2 1 0 1) = 0%Z /\
  (renamed (mk_summary 2 1 0 1) + errors (mk_summary 2 1 0 1) = total_found (mk_summary 2 1 0 1))%Z.
Proof.
  assert (R : run_changes (S := list_sys) ["/t"; "/t/a.txt"] false true false
    [("/t/a.txt", "/t/b.txt", false); ("/t/x.txt", "/t/y.txt", false)] []
  = Some (Completed (mk_summary 2 1 0 1)
            (mk_exec (S := list_sys) ["/t/b.txt"; "/t/a.txt.bak"; "/t"] 1%Z 1%Z
               [EvBackup "/t/a.txt" "/t/a.txt.bak" true; EvRename "/t/a.txt" "/t/b.txt" None;
                EvBackup "/t/x.txt" "/t/x.txt.bak" false]))) by (vm_compute; reflexivity).
  split; [exact R|]. exact (run_changes_all_attempted _ _ _ _ _ _ _ R).
Defined.

Lemma approve_loop_subseq_witness :
  approve_loop [("/t/a", "/t/b", false); ("/t/c", "/t/d", false); ("/t/e", "/t/f", false)]
    ["y"; "maybe"; "n"; "y"] = Some ([("/t/a", "/t/b", false); ("/t/e", "/t/f", false)], 4, []) /\
  subseq [("/t/a", "/t/b", false); ("/t/e", "/t/f", false)]
    [("/t/a", "/t/b", false); ("/t/c", "/t/d", false); ("/t/e", "/t/f", false)] /\ 3 <= 4.
Proof.
  assert (A : approve_loop [("/t/a", "/t/b", false); ("/t/c", "/t/d", false); ("/t/e", "/t/f", false)]
    ["y"; "maybe"; "n"; "y"] = Some ([("/t/a", "/t/b", false); ("/t/e", "/t/f", false)], 4, []))
    by (vm_compute; reflexivity).
  split; [exact A|]. exact (approve_loop_subseq _ _ _ _ _ A).
Defined.

Lemma no_directories_without_include_dirs_witness :
  In ("/t/Reports", true) (iter_targets demo_walk true) /\
  (forall p d, In (p, d) (find_matches (E := lit_engine) demo_walk
                            (mk_config "Report" "Rpt" false false [] false)) -> d = false) /\
  (forall ops, plan_changes (E := lit_engine) demo_fs demo_walk
                 (mk_config "Report" "Rpt" false false [] false) = Ok ops ->
     forall src dst d, In (src, dst, d) ops -> d = false).
Proof.
  split; [vm_compute; auto 20|].
  apply (no_directories_without_include_dirs (E := lit_engine)). reflexivity.
Defined.

Lemma extension_filter_respected_witness :
  In ("/t/Report-456.pdf", false) (iter_targets demo_walk true) /\
  (forall p, In (p, false) (find_matches (E := lit_engine) demo_walk
                              (mk_config "Report" "Rpt" false true [".txt"] false)) ->
     In (lower (snd (splitext p))) [".txt"]) /\
  (forall ops, plan_changes (E := lit_engine) demo_fs demo_walk
                 (mk_config "Report" "Rpt" false true [".txt"] false) = Ok ops ->
     forall src dst, In (src, dst, false) ops -> In (lower (snd (splitext src))) [".txt"]).
Proof.
  split; [vm_compute; auto 20|].
  apply (extension_filter_respected (E := lit_engine) demo_fs demo_walk
           (mk_config "Report" "Rpt" false true [".txt"] false)). discriminate.
Defined.

Lemma plan_changes_complete_witness :
  In ("/t/Report-123.txt",
      next_nonconflicting_path demo_fs (join (dirname "/t/Report-123.txt") "Rpt-123.txt"), false)
     [("/t/Report-123.txt", "/t/Rpt-123.txt", false);
      ("/t/Report-456.pdf", "/t/Rpt-456.pdf", false);
      ("/t/Reports/Report-789.txt", "/t/Reports/Rpt-789.txt", false)].
Proof.
  apply (plan_changes_complete (E := lit_engine) demo_fs demo_walk
           (mk_config "Report" "Rpt" false false [] false)).
  - vm_compute. reflexivity.
  - vm_compute. auto 20.
  - vm_compute. reflexivity.
  - vm_compute. reflexivity.
  - intros H. vm_compute in H. discriminate.
Defined.

Lemma plan_changes_shared_destination_witness :
  plan_changes (E := lit_engine) ["/t"; "/t/xa"; "/t/Xa"] [("/t", [], ["xa"; "Xa"])]
    (mk_config "x" "y" false false [] false)
  = Ok [("/t/xa", "/t/ya", false); ("/t/Xa", "/t/ya", false)] /\
  exists dst, In ("/t/xa", dst, false) [("/t/xa", "/t/ya", false); ("/t/Xa", "/t/ya", false)] /\
              In ("/t/Xa", dst, false) [("/t/xa", "/t/ya", false); ("/t/Xa", "/t/ya", false)].
Proof.
  assert (P : plan_changes (E := lit_engine) ["/t"; "/t/xa"; "/t/Xa"] [("/t", [], ["xa"; "Xa"])]
    (mk_config "x" "y" false false [] false)
    = Ok [("/t/xa", "/t/ya", false); ("/t/Xa", "/t/ya", false)]) by (vm_compute; reflexivity).
  split; [exact P|].
  apply (plan_changes_shared_destination (E := lit_engine) _ _ _ _ "/t/xa" "/t/Xa" false false "ya" P).
  - vm_compute. auto 20.
  - vm_compute. auto 20.
  - reflexivity.
  - reflexivity.
  - reflexivity.
  - vm_compute. reflexivity.
  - vm_compute. reflexivity.
  - intros H. vm_compute in H. discriminate.
  - intros H. vm_compute in H. discriminate.
Defined.

Lemma strip_quotes_quoted_witness :
  strip_quotes (Some (" " ++ String dquote ("a b" ++ String dquote "  "))) = Some "a b".
Proof. apply strip_quotes_quoted; [left; reflexivity|reflexivity|reflexivity]. Defined.

Lemma normalize_exts_shape_witness :
  normalize_exts " PDF, .Txt ,,x" = [".pdf"; ".txt"; ".x"] /\
  (startswith_char "."%char ".pdf" = true /\ lower ".pdf" = ".pdf" /\
   has_char ","%char ".pdf" = false /\ Prompt.strip ".pdf" = ".pdf").
Proof.
  split; [vm_compute; reflexivity|].
  apply (normalize_exts_shape " PDF, .Txt ,,x"). vm_compute. auto.
Defined.

Lemma no_extension_not_eligible_witness :
  eligible "/t/README" false (normalize_exts "txt, md") = false.
Proof.
  apply no_extension_not_eligible; [vm_compute; discriminate|reflexivity].
Defined.

Lemma ensure_dated_log_file_fresh_witness :
  ensure_log_file ["/w/renamed.10.19.2026.txt"] (fun _ => true) "/w" "10.19.2026"
    = Some "/w/renamed.10.19.2026(1).txt" /\
  exists p,
    ensure_dated_log_file ["/w/renamed.10.19.2026.txt"] (fun _ => true) "/w" "10.19.2026" (String "."%char "txt")
      = (if (fun _ : string => true) p then Some p else None) /\
    path_exists ["/w/renamed.10.19.2026.txt"] p = false /\
    (p = join "/w" ("renamed." ++ "10.19.2026" ++ String "."%char "txt") \/
     (path_exists ["/w/renamed.10.19.2026.txt"] (join "/w" ("renamed." ++ "10.19.2026" ++ String "."%char "txt")) = true /\
      exists i, 1 <= i /\
        p = join "/w" ("renamed." ++ "10.19.2026" ++ "(" ++ str_of_nat i ++ ")" ++ String "."%char "txt") /\
        forall k, 1 <= k < i ->
          path_exists ["/w/renamed.10.19.2026.txt"]
            (join "/w" ("renamed." ++ "10.19.2026" ++ "(" ++ str_of_nat k ++ ")" ++ String "."%char "txt")) = true)).
Proof.
  split; [vm_compute; reflexivity|].
  apply ensure_dated_log_file_fresh; reflexivity.
Defined.

Lemma gather_change_keeps_defaults_witness :
  gather_inputs_interactive [("location", Some "/a"); ("find", Some "x"); ("replace", Some "y")]
    ["/b"; "z"; "w"; "c"; ""; ""; ""; "y"] = GReturn "/a" "x" "y" [] /\
  gather_inputs_interactive [("location", Some "/a"); ("find", Some "x"); ("replace", Some "y")]
    ["/b"; "z"; "w"; "c"; ""; ""; ""; "y"] =
  gather_inputs_interactive [("location", Some "/a"); ("find", Some "x"); ("replace", Some "y")]
    [""; ""; ""; "y"].
Proof.
  split; [vm_compute; reflexivity|].
  apply gather_change_keeps_defaults; [discriminate|discriminate|discriminate|reflexivity].
Defined.

Lemma main_confirm_approve_each_witness :
  main_confirm false "/l" "f" "r" ["c"; ""; ""; ""; "a"] = CProceed false "/l" "f" "r" [] /\
  (false = true <-> false = false /\ exists rest0, confirm_plan ["c"; ""; ""; ""; "a"] = Some ("a", rest0)).
Proof.
  assert (M : main_confirm false "/l" "f" "r" ["c"; ""; ""; ""; "a"] = CProceed false "/l" "f" "r" [])
    by (vm_compute; reflexivity).
  split; [exact M|]. exact (main_confirm_approve_each _ _ _ _ _ _ _ _ _ _ M).
Defined.

Lemma ci_replace_plain_replacement_witness :
  ci_replace "Report-REPORT.txt" "report" "Rpt" false = Ok "Rpt-Rpt.txt" /\
  ci_replace "Report-REPORT.txt" "report" "Rpt" false
    = Ok (ci_replace_spec "Report-REPORT.txt" "report" "Rpt").
Proof.
  split; [vm_compute; reflexivity|].
  apply ci_replace_plain_replacement; [discriminate|reflexivity].
Defined.

End Extras.
